(** * Exchange-rate alert bot: alert scheduling and threshold evaluation

    A shallow embedding of [telbotScript_v3.py]: the rate fetcher
    [fetch_exchange_rates], the command handlers [alert] and [rate], the
    button handler [button_handler] and the repeating job callback
    [check_alerts], together with the few Python built-ins they rely on
    ([str.split], [str.upper], [float], [dict.get], true division, the
    [.2f] format, truthiness and [>=]).

    Modelling conventions.
    - Text is ASCII ([string]); Python's Unicode-only behaviour of [split],
      [upper] and [float] is outside the model.
    - A Python [float] is [pyfloat]: a finite value is the rational number
      it denotes, next to the two infinities and NaN. Every operation that
      makes a float (reading a literal, converting an [int], dividing)
      rounds to the nearest binary64 value, ties to even, with underflow to
      zero and overflow to infinity or to [OverflowError] as in Python;
      comparisons, also of an [int] with a [float], are exact. The sign of
      a zero is not kept.
    - Exceptions are explicit: a computation returns [Ok v] or [Raise e].
    - The outside world is explicit: each tick of a job is given the
      provider's response to the HTTP request and the outcome of the
      Telegram delivery.
    - The job queue is the library's: a job runs on its ticks until it is
      removed, and an exception raised by its callback is logged by the
      queue and leaves the job scheduled.
    - [start], [set_bot_commands] and [main] only build menus and texts
      and register the handlers; they are not part of the model. *)

From Stdlib Require Import Ascii String QArith Qpower.
From stdpp Require Import base option list strings gmap.

Local Open Scope Z_scope.

(** ** Python values and built-ins *)

Module Py.

(** Python [float]. *)
Inductive pyfloat : Type :=
  | Fin (q : Q)
  | PosInf
  | NegInf
  | NaN.

(** JSON-shaped Python values. A [dict] keeps its items in insertion
    order; keys are unique in every dict the program builds or receives. *)
#[warnings="-register-all"] Inductive pyval : Type :=
  | PNone
  | PBool (b : bool)
  | PInt (z : Z)
  | PFloat (f : pyfloat)
  | PStr (s : string)
  | PList (l : list pyval)
  | PDict (d : list (string * pyval)).

Inductive exn : Type :=
  | RequestException
  | TypeError
  | ZeroDivisionError
  | OverflowError
  | AttributeError
  | IndexError
  | ValueError
  | KeyError
  | TelegramError.

Inductive result (A : Type) : Type :=
  | Ok (a : A)
  | Raise (e : exn).
Arguments Ok {A} a.
Arguments Raise {A} e.

#[global] Instance result_ret : MRet result := fun A a => Ok a.
#[global] Instance result_bind : MBind result := fun A B f m =>
  match m with
  | Ok a => f a
  | Raise e => Raise e
  end.

#[global] Instance result_fmap : FMap result := fun A B f m =>
  match m with
  | Ok a => Ok (f a)
  | Raise e => Raise e
  end.

(** *** Numbers *)

Definition Qlt_bool (a b : Q) : bool := negb (Qle_bool b a).

Definition f_is_zero (x : pyfloat) : bool :=
  match x with
  | Fin q => Qeq_bool q 0
  | _ => false
  end.

(** [x >= y] on floats; every comparison with NaN is false. *)
Definition f_ge (x y : pyfloat) : bool :=
  match x, y with
  | NaN, _ | _, NaN => false
  | PosInf, _ => true
  | _, NegInf => true
  | NegInf, _ => false
  | _, PosInf => false
  | Fin a, Fin b => Qle_bool b a
  end.

(** The binary64 value nearest to [n / d], for [n] and [d] positive. The
    significand has 53 bits; [lg] is the binary order of magnitude of the
    quotient, [e] the exponent of the last bit kept, never below -1074;
    [m] is the quotient in units of [2 ^ e], rounded to the nearest
    integer, to the even one on a tie. From [2 ^ 1024] on the value is
    infinite. *)
Definition b64_nearest (n d : Z) : pyfloat :=
  let k := Z.log2 n - Z.log2 d in
  let above := if 0 <=? k then d * 2 ^ k <=? n else d <=? n * 2 ^ (- k) in
  let lg := if above then k else k - 1 in
  let e := Z.max (lg - 52) (-1074) in
  let num := if 0 <=? e then n else n * 2 ^ (- e) in
  let den := if 0 <=? e then d * 2 ^ e else d in
  let q := num / den in
  let r := num mod den in
  let m :=
    if 2 * r <? den then q
    else if den <? 2 * r then q + 1
    else if Z.even q then q else q + 1 in
  if 0 <=? e then
    if 2 ^ 1024 <=? m * 2 ^ e then PosInf else Fin (inject_Z (m * 2 ^ e))
  else Fin (Qred (Qmake m (Z.to_pos (2 ^ (- e))))).

Definition f_neg (x : pyfloat) : pyfloat :=
  match x with
  | Fin q => Fin (- q)
  | PosInf => NegInf
  | NegInf => PosInf
  | NaN => NaN
  end.

(** The binary64 value nearest to a rational. *)
Definition b64_round (q : Q) : pyfloat :=
  match Qnum q with
  | Z0 => Fin 0
  | Zpos n => b64_nearest (Zpos n) (Zpos (Qden q))
  | Zneg n => f_neg (b64_nearest (Zpos n) (Zpos (Qden q)))
  end.

(** A rounded value that left the range of the finite floats. *)
Definition finite_or_overflow (x : pyfloat) : result pyfloat :=
  match x with
  | PosInf | NegInf => Raise OverflowError
  | _ => Ok x
  end.

(** [x / y] on floats, for a divisor that is not zero. *)
Definition f_div (x y : pyfloat) : pyfloat :=
  match x, y with
  | NaN, _ | _, NaN => NaN
  | (PosInf | NegInf), (PosInf | NegInf) => NaN
  | PosInf, Fin b => if Qlt_bool b 0 then NegInf else PosInf
  | NegInf, Fin b => if Qlt_bool b 0 then PosInf else NegInf
  | Fin _, (PosInf | NegInf) => Fin 0
  | Fin a, Fin b => b64_round (a / b)
  end.

(** The exact numeric value of an [int], [bool] or [float] operand, as
    comparisons and truth tests see it. *)
Definition as_num (v : pyval) : option pyfloat :=
  match v with
  | PBool b => Some (Fin (inject_Z (if b then 1 else 0)))
  | PInt z => Some (Fin (inject_Z z))
  | PFloat f => Some f
  | _ => None
  end.

(** The value of an [int] or a [bool] as an integer. *)
Definition as_int (v : pyval) : option Z :=
  match v with
  | PBool b => Some (if b then 1 else 0)
  | PInt z => Some z
  | _ => None
  end.

(** The conversion of a number to [float]: an [int] is rounded to the
    nearest float, [OverflowError] when it is too large for one. *)
Definition to_float (v : pyval) : result pyfloat :=
  match v with
  | PFloat f => Ok f
  | PInt _ | PBool _ =>
      match as_int v with
      | Some z => finite_or_overflow (b64_round (inject_Z z))
      | None => Raise TypeError
      end
  | _ => Raise TypeError
  end.

(** [a / b]. [TypeError] unless both operands are numbers. Two integers
    give the correctly rounded quotient of the integers themselves:
    [ZeroDivisionError] on a zero divisor, [OverflowError] when the quotient
    is too large for a float. Otherwise both operands are converted to
    [float], the left one first, which can raise [OverflowError]; then
    [ZeroDivisionError] on a zero divisor, else the float quotient. *)
Definition py_truediv (a b : pyval) : result pyval :=
  match as_int a, as_int b with
  | Some x, Some y =>
      if y =? 0 then Raise ZeroDivisionError
      else PFloat <$> finite_or_overflow (b64_round (inject_Z x / inject_Z y))
  | _, _ =>
      match as_num a, as_num b with
      | Some _, Some _ =>
          x ← to_float a;
          y ← to_float b;
          if f_is_zero y then Raise ZeroDivisionError
          else Ok (PFloat (f_div x y))
      | _, _ => Raise TypeError
      end
  end.

(** [bool(v)]. *)
Definition truthy (v : pyval) : bool :=
  match v with
  | PNone => false
  | PBool b => b
  | PInt z => negb (z =? 0)
  | PFloat f => negb (f_is_zero f)
  | PStr s => negb (String.eqb s "")
  | PList l => match l with [] => false | _ => true end
  | PDict d => match d with [] => false | _ => true end
  end.

(** [v >= t] for a [float] right operand: defined on numbers only. *)
Definition py_ge_float (v : pyval) (t : pyfloat) : result bool :=
  match as_num v with
  | Some x => Ok (f_ge x t)
  | None => Raise TypeError
  end.

(** *** Dictionaries *)

Fixpoint dict_lookup (d : list (string * pyval)) (k : string) : option pyval :=
  match d with
  | [] => None
  | (k', v) :: d' => if String.eqb k' k then Some v else dict_lookup d' k
  end.

(** [d[k]] on a dict. *)
Definition py_getitem (d : list (string * pyval)) (k : string) : result pyval :=
  match dict_lookup d k with
  | Some v => Ok v
  | None => Raise KeyError
  end.

(** [f"{v:.2f}"] is defined on numbers: a [float] is shown as it is, an
    [int] is converted to [float] first, [OverflowError] when it is too
    large; what is shown is the number. A string rejects the format code,
    any other value has no such format. *)
Definition format_2f (v : pyval) : result pyval :=
  match as_num v, v with
  | Some _, _ => _ ← to_float v; Ok v
  | None, PStr _ => Raise ValueError
  | None, _ => Raise TypeError
  end.

(** [d.get(k, default)]; only a [dict] has the method. *)
Definition py_get (d : pyval) (k : string) (dflt : pyval) : result pyval :=
  match d with
  | PDict items => Ok (default dflt (dict_lookup items k))
  | _ => Raise AttributeError
  end.

(** *** Strings *)

(** [str.isspace] on ASCII: TAB, LF, VT, FF, CR, FS, GS, RS, US and space. *)
Definition is_space (c : ascii) : bool :=
  let n := N_of_ascii c in
  (((9 <=? n) && (n <=? 13)) || ((28 <=? n) && (n <=? 32)))%N.

(** [s.split()]: the maximal runs of non-whitespace characters. [cur] is
    the run being read, most recent character first. *)
Fixpoint split_from (cur : list ascii) (s : string) : list string :=
  match s with
  | EmptyString =>
      match cur with
      | [] => []
      | _ => [string_of_list_ascii (rev cur)]
      end
  | String c s' =>
      if is_space c then
        match cur with
        | [] => split_from [] s'
        | _ => string_of_list_ascii (rev cur) :: split_from [] s'
        end
      else split_from (c :: cur) s'
  end.

Definition py_split (s : string) : list string := split_from [] s.

Definition upper_char (c : ascii) : ascii :=
  let n := N_of_ascii c in
  if ((97 <=? n) && (n <=? 122))%N then ascii_of_N (n - 32) else c.

Definition lower_char (c : ascii) : ascii :=
  let n := N_of_ascii c in
  if ((65 <=? n) && (n <=? 90))%N then ascii_of_N (n + 32) else c.

(** [s.upper()]. *)
Fixpoint py_upper (s : string) : string :=
  match s with
  | EmptyString => EmptyString
  | String c s' => String (upper_char c) (py_upper s')
  end.

(** [l[i]] on a list: [IndexError] out of range. *)
Definition py_index {A} (l : list A) (i : nat) : result A :=
  match l !! i with
  | Some x => Ok x
  | None => Raise IndexError
  end.

(** *** [float(s)]

    The value is the float nearest to the number written, infinite when
    the number is too large. The grammar of the language reference:
    [floatvalue ::= [sign] (floatnumber | "inf" | "infinity" | "nan")],
    [floatnumber ::= number [exponent]],
    [number ::= [digitpart] "." digitpart | digitpart ["."]],
    [exponent ::= ("e" | "E") [sign] digitpart],
    [digitpart ::= digit (["_"] digit)*]; the three names in any case. *)

Definition digit_val (c : ascii) : option Z :=
  let n := N_of_ascii c in
  if ((48 <=? n) && (n <=? 57))%N then Some (Z.of_N (n - 48)) else None.

(** Reads the rest of a digitpart: [acc] is the value read so far and
    [n] the number of digits read. *)
Fixpoint digits_from (acc : Z) (n : nat) (l : list ascii) : Z * nat * list ascii :=
  match l with
  | c :: l' =>
      match digit_val c with
      | Some d => digits_from (10 * acc + d) (S n) l'
      | None =>
          if Ascii.eqb c "_" then
            match l' with
            | c2 :: l'' =>
                match digit_val c2 with
                | Some d => digits_from (10 * acc + d) (S n) l''
                | None => (acc, n, l)
                end
            | [] => (acc, n, l)
            end
          else (acc, n, l)
      end
  | [] => (acc, n, l)
  end.

(** A digitpart at the head of [l]: its value, its number of digits and
    the rest of the input. *)
Definition digitpart (l : list ascii) : option (Z * nat * list ascii) :=
  match l with
  | c :: l' =>
      match digit_val c with
      | Some d => Some (digits_from d 1 l')
      | None => None
      end
  | [] => None
  end.

(** [number]: the mantissa as an integer and the number of digits after
    the point. *)
Definition number (l : list ascii) : option (Z * nat * list ascii) :=
  match l with
  | "."%char :: l' =>
      match digitpart l' with
      | Some (fr, k, rest) => Some (fr, k, rest)
      | None => None
      end
  | _ =>
      match digitpart l with
      | Some (ip, _, "."%char :: l') =>
          match digitpart l' with
          | Some (fr, k, rest) => Some (ip * 10 ^ Z.of_nat k + fr, k, rest)
          | None => Some (ip, 0%nat, l')
          end
      | Some (ip, _, rest) => Some (ip, 0%nat, rest)
      | None => None
      end
  end.

Definition sign_of (l : list ascii) : bool * list ascii :=
  match l with
  | "-"%char :: l' => (true, l')
  | "+"%char :: l' => (false, l')
  | _ => (false, l)
  end.

(** [exponent], or nothing at the end of the input. *)
Definition exponent (l : list ascii) : option Z :=
  match l with
  | [] => Some 0
  | c :: l' =>
      if Ascii.eqb (lower_char c) "e" then
        let '(neg, l'') := sign_of l' in
        match digitpart l'' with
        | Some (e, _, []) => Some (if neg then - e else e)
        | _ => None
        end
      else None
  end.

(** [m * 10 ** e], exactly, as a rational in lowest terms. *)
Definition scale10 (m e : Z) : Q :=
  if 0 <=? e then inject_Z (m * 10 ^ e)
  else Qred (Qmake m (Z.to_pos (10 ^ (- e)))).

(** The whitespace [float] ignores around the number: TAB, LF, VT, FF, CR
    and space, but not the separators FS to US that [split] takes for
    blanks. *)
Definition is_c_space (c : ascii) : bool :=
  let n := N_of_ascii c in
  (((9 <=? n) && (n <=? 13)) || (n =? 32))%N.

Definition strip (l : list ascii) : list ascii :=
  let drop_space := fix go (l : list ascii) : list ascii :=
    match l with
    | c :: l' => if is_c_space c then go l' else l
    | [] => []
    end in
  rev (drop_space (rev (drop_space l))).

Definition py_float (s : string) : result pyfloat :=
  let '(neg, body) := sign_of (strip (list_ascii_of_string s)) in
  let name := string_of_list_ascii (map lower_char body) in
  if String.eqb name "inf" || String.eqb name "infinity" then
    Ok (if neg then NegInf else PosInf)
  else if String.eqb name "nan" then Ok NaN
  else
    match number body with
    | Some (m, k, rest) =>
        match exponent rest with
        | Some e =>
            Ok (b64_round (scale10 (if neg then - m else m) (e - Z.of_nat k)))
        | None => Raise ValueError
        end
    | None => Raise ValueError
    end.

End Py.

(** ** The bot *)

Module Bot.
Import Py.

(** *** [fetch_exchange_rates] *)

(** What [requests.get(url)], [raise_for_status()] and [response.json()]
    yield together: a [requests.RequestException] (connection error, HTTP
    error status, body that is not JSON) or the decoded body. *)
Inductive provider_response : Type :=
  | RequestFails
  | JsonBody (data : pyval).

Definition get_json (r : provider_response) : result pyval :=
  match r with
  | RequestFails => Raise RequestException
  | JsonBody data => Ok data
  end.

(** The body of the [try] block. The dict display evaluates its values
    in order, each division after both of its operands. *)
Definition fetch_try (r : provider_response) : result pyval :=
  data ← get_json r;
  rates ← py_get data "rates" (PDict []);
  usd ← py_get rates "NGN" (PStr "N/A");
  ngn1 ← py_get rates "NGN" (PStr "N/A");
  gbp ← py_get rates "GBP" (PInt 1);
  gbp_ngn ← py_truediv ngn1 gbp;
  ngn2 ← py_get rates "NGN" (PStr "N/A");
  eur ← py_get rates "EUR" (PInt 1);
  eur_ngn ← py_truediv ngn2 eur;
  mret (PDict [("USD/NGN", usd); ("GBP/NGN", gbp_ngn); ("EUR/NGN", eur_ngn)]).

(** [except requests.RequestException] logs and returns [None]; any other
    exception leaves the function. *)
Definition fetch_exchange_rates (r : provider_response) : result pyval :=
  match fetch_try r with
  | Raise RequestException => Ok PNone
  | other => other
  end.

(** *** Jobs and the job callback *)

(** [job.data]: the chat to notify and the alert tuple
    [(currency_pair, threshold_rate)] captured when the job was created. *)
Record job : Type := Job {
  user_id : Z;
  alert_of : string * pyfloat;
}.

(** The arguments of [context.bot.send_message]: the chat and the three
    values interpolated into the text. *)
Record message : Type := Message {
  chat_id : Z;
  msg_pair : string;
  msg_rate : pyval;
  msg_threshold : pyfloat;
}.

(** What one run of the callback can change: the messages it passed to
    [send_message], those of them Telegram delivered, and the removal mark
    of the job. *)
Record effects : Type := Effects {
  dispatched : list message;
  delivered : list message;
  removed : bool;
}.

Definition no_effects : effects := Effects [] [] false.

(** Computations that may raise and that keep the effects made before. *)
Definition io (A : Type) : Type := effects → result A * effects.

#[global] Instance io_ret : MRet io := fun A a w => (Ok a, w).
#[global] Instance io_bind : MBind io := fun A B f m w =>
  match m w with
  | (Ok a, w') => f a w'
  | (Raise e, w') => (Raise e, w')
  end.

Definition lift {A} (r : result A) : io A := fun w => (r, w).

(** [await context.bot.send_message(...)]: the message is delivered, or
    the call raises a [TelegramError] and nothing is delivered. *)
Definition send_message (accepted : bool) (m : message) : io unit := fun w =>
  if accepted
  then (Ok (), Effects (dispatched w ++ [m]) (delivered w ++ [m]) (removed w))
  else (Raise TelegramError,
        Effects (dispatched w ++ [m]) (delivered w) (removed w)).

(** [job.schedule_removal()]. *)
Definition schedule_removal : io unit := fun w =>
  (Ok (), Effects (dispatched w) (delivered w) true).

(** The world as one tick sees it. *)
Record tick : Type := Tick {
  response : provider_response;
  accepted : bool;
}.

(** [x and y] where [y] is a comparison: [x] itself when it is falsy. *)
Definition and_ge (x : pyval) (t : pyfloat) : result bool :=
  if truthy x then py_ge_float x t else Ok false.

(** The callback. The text of the message is built before
    [send_message] is called: both numbers are formatted with [.2f]. *)
Definition check_alerts (j : job) (t : tick) : io unit :=
  let '(currency_pair, threshold_rate) := alert_of j in
  rates ← lift (fetch_exchange_rates (response t));
  if truthy rates then
    current_rate ← lift (py_get rates currency_pair PNone);
    hit ← lift (and_ge current_rate threshold_rate);
    if hit : bool then
      lift (format_2f current_rate);;
      lift (format_2f (PFloat threshold_rate));;
      send_message (accepted t)
        (Message (user_id j) currency_pair current_rate threshold_rate);;
      schedule_removal
    else mret ()
  else mret ().

(** One run of the job by the queue. The job queue catches and logs an
    exception of the callback and keeps the job scheduled. *)
Definition run_tick (j : job) (t : tick) : result unit * effects :=
  check_alerts j t no_effects.

(** The successive runs of one repeating job: after a run that marked the
    job for removal there is no further run. *)
Fixpoint run_job (j : job) (ticks : list tick) : list (result unit * effects) :=
  match ticks with
  | [] => []
  | t :: ts =>
      let r := run_tick j t in
      r :: (if removed r.2 then [] else run_job j ts)
  end.

(** *** The handlers and the application state *)

(** [context.user_data]: the dict of one user. The program stores a single
    key, ["alerts"], holding the tuple [(currency_pair, threshold_rate)]. *)
Abbreviation user_dict := (gmap string (string * pyfloat)).

(** The texts the handlers answer with, each with the values it shows. *)
Inductive reply : Type :=
  | AlertSet (currency_pair : string) (threshold_rate : pyfloat)
  | Usage
  | TodaysRates (usd_ngn gbp_ngn eur_ngn : pyval)
  | FetchFailed
  | AlertFormat
  | MonitoringStarted
  | JobQueueUnavailable
  | NoAlertSet.

(** The [try] block of [alert]: the store is written after both the
    indexing and the conversion succeeded. *)
Definition alert_try (text : string) (ud : user_dict) : result (user_dict * reply) :=
  let user_message := py_split text in
  currency_pair ← py_upper <$> py_index user_message 1;
  threshold_rate ← py_index user_message 2 ≫= py_float;
  mret (<["alerts" := (currency_pair, threshold_rate)]> ud,
        AlertSet currency_pair threshold_rate).

(** [except (IndexError, ValueError)] answers with the usage text. *)
Definition alert (text : string) (ud : user_dict) : result (user_dict * reply) :=
  match alert_try text ud with
  | Raise IndexError | Raise ValueError => Ok (ud, Usage)
  | other => other
  end.

(** The state of the application: the per-user dicts, whether a job queue
    was built, the jobs created so far with their "still scheduled" flag (a
    job is named by its position), and what was sent. *)
Record bot : Type := BotState {
  user_data : gmap Z user_dict;
  job_queue : bool;
  jobs : list (job * bool);
  notifications : list message;
  replies : list (Z * reply);
}.

Definition data_of (b : bot) (user : Z) : user_dict :=
  default ∅ (user_data b !! user).

(** The ["schedule_alert"] branch of [button_handler]: [run_repeating]
    always creates a new job, which captures the current alert tuple. *)
Definition schedule_alert (user chat : Z) (b : bot) : bot :=
  match data_of b user !! "alerts" with
  | Some a =>
      if job_queue b then
        BotState (user_data b) (job_queue b)
          (jobs b ++ [(Job chat a, true)])
          (notifications b) (replies b ++ [(chat, MonitoringStarted)])
      else
        BotState (user_data b) (job_queue b) (jobs b)
          (notifications b) (replies b ++ [(chat, JobQueueUnavailable)])
  | None =>
      BotState (user_data b) (job_queue b) (jobs b)
        (notifications b) (replies b ++ [(chat, NoAlertSet)])
  end.

(** The text of the ["get_rates"] branch: the three rates of a truthy
    result of the fetch, the failure text otherwise. *)
Definition rates_text (r : provider_response) : result reply :=
  rates ← fetch_exchange_rates r;
  if truthy rates then
    match rates with
    | PDict snapshot =>
        usd ← py_getitem snapshot "USD/NGN" ≫= format_2f;
        gbp ← py_getitem snapshot "GBP/NGN" ≫= format_2f;
        eur ← py_getitem snapshot "EUR/NGN" ≫= format_2f;
        mret (TodaysRates usd gbp eur)
    | _ => Raise TypeError
    end
  else mret FetchFailed.

Definition answer (chat : Z) (r : reply) (b : bot) : bot :=
  BotState (user_data b) (job_queue b) (jobs b) (notifications b)
    (replies b ++ [(chat, r)]).

(** [button_handler], by the [callback_data] of the button pressed. [r] is
    what the provider answers should the handler ask. A handler that
    raises is logged by the application and changes nothing. *)
Definition button_handler
    (query_data : string) (user chat : Z) (r : provider_response) (b : bot) : bot :=
  if String.eqb query_data "get_rates" then
    match rates_text r with
    | Ok message => answer chat message b
    | Raise _ => b
    end
  else if String.eqb query_data "set_alert" then answer chat AlertFormat b
  else if String.eqb query_data "schedule_alert" then schedule_alert user chat b
  else b.

Definition on_alert (user chat : Z) (text : string) (b : bot) : bot :=
  match alert text (data_of b user) with
  | Ok (ud, r) =>
      BotState (<[user := ud]> (user_data b)) (job_queue b) (jobs b)
        (notifications b) (replies b ++ [(chat, r)])
  | Raise _ => b
  end.

(** The queue runs job [jid], if it is still scheduled. *)
Definition on_tick (jid : nat) (t : tick) (b : bot) : bot :=
  match jobs b !! jid with
  | Some (j, true) =>
      let '(_, w) := run_tick j t in
      BotState (user_data b) (job_queue b)
        (<[jid := (j, negb (removed w))]> (jobs b))
        (notifications b ++ delivered w) (replies b)
  | _ => b
  end.

(** What happens to the application: a user sends [/alert ...], a user
    presses a button, the queue runs a job. *)
Inductive event : Type :=
  | AlertCommand (user chat : Z) (text : string)
  | Button (query_data : string) (user chat : Z) (r : provider_response)
  | JobTick (jid : nat) (t : tick).

Definition step (b : bot) (e : event) : bot :=
  match e with
  | AlertCommand user chat text => on_alert user chat text b
  | Button query_data user chat r => button_handler query_data user chat r b
  | JobTick jid t => on_tick jid t b
  end.

(** The "Start Alert Monitoring" button; its handler makes no request. *)
Definition ScheduleButton (user chat : Z) : event :=
  Button "schedule_alert" user chat RequestFails.

Definition run (b : bot) (es : list event) : bot := foldl step b es.

Definition initial : bot := BotState ∅ true [] [] [].

(** The jobs still scheduled for a chat and a pair. *)
Definition scheduled_for (chat : Z) (pair : string) (b : bot) : list job :=
  fst <$> filter (λ jb : job * bool,
            jb.2 = true ∧ user_id jb.1 = chat ∧ (alert_of jb.1).1 = pair) (jobs b).

End Bot.

Import Py Bot.

(** ** Notions used in the statements *)

(** The three keys of the dict [fetch_exchange_rates] builds. *)
Definition listed_pairs : list string := ["USD/NGN"; "GBP/NGN"; "EUR/NGN"].

Definition is_number (v : pyval) : Prop := is_Some (as_num v).

(** A number that is finite and greater than zero. *)
Definition positive (v : pyval) : Prop :=
  ∃ q, as_num v = Some (Fin q) ∧ (0 < q)%Q.

(** The rate of a pair in the snapshot fetched from a response: the value
    stored under the pair, if the fetch returned a snapshot and the
    snapshot has the pair. *)
Definition snapshot_rate (r : provider_response) (pair : string) : option pyval :=
  match fetch_exchange_rates r with
  | Ok (PDict snapshot) => dict_lookup snapshot pair
  | _ => None
  end.

(** The rate a tick observes for a pair. *)
Definition observed_rate (t : tick) (pair : string) : option pyval :=
  snapshot_rate (response t) pair.

(** The trigger condition in the words of the specification:
    [snapshot[pair] >= threshold]. *)
Definition spec_trigger (j : job) (t : tick) : Prop :=
  ∃ v x, observed_rate t (alert_of j).1 = Some v ∧ as_num v = Some x ∧
         f_ge x (alert_of j).2 = true.

(** The trigger condition of [check_alerts]: the rate is moreover truthy,
    that is, not zero. *)
Definition trigger (j : job) (t : tick) : Prop :=
  ∃ v x, observed_rate t (alert_of j).1 = Some v ∧ as_num v = Some x ∧
         f_is_zero x = false ∧ f_ge x (alert_of j).2 = true.

(** A number that has a value as a [float]: a [float], or an [int] that is
    not too large for one. These are the rates a message can show. *)
Definition float_valued (v : pyval) : Prop := ∃ f, to_float v = Ok f.

(** A tick on which [check_alerts] reaches [send_message]: the trigger
    condition is met and the rate can be shown in the message. *)
Definition hit (j : job) (t : tick) : Prop :=
  trigger j t ∧
  ∃ v, observed_rate t (alert_of j).1 = Some v ∧ float_valued v.

(** A threshold above zero, as an alert is meant to have. *)
Definition f_positive (x : pyfloat) : Prop :=
  match x with
  | Fin q => (0 < q)%Q
  | PosInf => True
  | _ => False
  end.

(** The message [check_alerts] sends for a job on a tick. *)
Definition alert_message (j : job) (t : tick) : message :=
  Message (user_id j) (alert_of j).1
    (default PNone (observed_rate t (alert_of j).1)) (alert_of j).2.

(** All messages delivered over a run of a job. *)
Definition all_delivered (rs : list (result unit * effects)) : list message :=
  concat ((λ r, delivered r.2) <$> rs).

(** All messages passed to [send_message] over a run of a job, delivered
    or not. *)
Definition all_dispatched (rs : list (result unit * effects)) : list message :=
  concat ((λ r, dispatched r.2) <$> rs).

(** The ticks on which Telegram rejects the message. *)
Definition rejecting (ticks : list tick) : list tick :=
  filter (λ t, accepted t = false) ticks.

(** The number of messages an event makes job [jid] deliver: what a tick
    of that job adds to the notifications sent. *)
Definition delivered_by (jid : nat) (b : bot) (e : event) : nat :=
  match e with
  | JobTick i _ =>
      if decide (i = jid)
      then (length (notifications (step b e)) - length (notifications b))%nat
      else 0%nat
  | _ => 0%nat
  end.

(** The number of messages job [jid] delivers over a run of the
    application. *)
Fixpoint deliveries_by (jid : nat) (b : bot) (es : list event) : nat :=
  match es with
  | [] => 0%nat
  | e :: es' => (delivered_by jid b e + deliveries_by jid (step b e) es')%nat
  end.

(** A job that was removed from the queue. *)
Definition retired (b : bot) (jid : nat) : Prop :=
  ∃ j, jobs b !! jid = Some (j, false).

(** The fetch signals failure on a tick: it returns [None] or raises. *)
Definition fetch_fails (t : tick) : Prop :=
  fetch_exchange_rates (response t) = Ok PNone ∨
  ∃ e, fetch_exchange_rates (response t) = Raise e.

(** *** The claims in the words of the specification *)

(** "The engine fires that alert at most once over the whole lifetime of
    its scheduled job", where firing is the attempt to notify: over a run
    at most one message is passed to [send_message]. *)
Definition spec_fires_once (j : job) (ticks : list tick) : Prop :=
  (length (all_dispatched (run_job j ticks)) ≤ 1)%nat.

(** "The job is removed regardless of whether the notification delivery
    succeeds or fails." *)
Definition spec_removed_on_trigger (j : job) (t : tick) : Prop :=
  trigger j t → removed (run_tick j t).2 = true.

(** "The rate fetch returns either a failure indicator or a complete
    snapshot mapping every listed pair to a positive float rate." *)
Definition spec_fetch_total (r : provider_response) : Prop :=
  fetch_exchange_rates r = Ok PNone ∨
  ∃ snapshot, fetch_exchange_rates r = Ok (PDict snapshot) ∧
    ∀ pair, pair ∈ listed_pairs →
      ∃ q, dict_lookup snapshot pair = Some (PFloat (Fin q)) ∧ (0 < q)%Q.

(** "setAlert with a non-positive threshold fails with InvalidInput and
    creates no Alert": a third word reading as a finite value <= 0 gets
    the usage answer and leaves the user's dict as it was. *)
Definition spec_rejects_non_positive (text : string) (ud : user_dict) : Prop :=
  ∀ (s : string) (q : Q),
    py_split text !! 2%nat = Some s → py_float s = Ok (Fin q) → (q <= 0)%Q →
    alert text ud = Ok (ud, Usage).

(** "At most one active scheduled job exists per (user, pair) at any
    time." *)
Definition spec_single_job (b : bot) : Prop :=
  ∀ (chat : Z) (pair : string), (length (scheduled_for chat pair b) ≤ 1)%nat.

(** "The superseded scheduled job produces zero further ticks": running
    job [jid] sends nothing, whatever the tick. *)
Definition spec_job_silent (b : bot) (jid : nat) : Prop :=
  ∀ t : tick, notifications (step b (JobTick jid t)) = notifications b.

(** *** Concrete inputs *)

(** A provider body whose [rates] give [ngn] for NGN, 0.75 for GBP and
    0.875 for EUR. *)
Definition rates_body (ngn : pyval) : provider_response :=
  JsonBody (PDict [("rates",
    PDict [("NGN", ngn); ("GBP", PFloat (Fin (3 # 4)));
           ("EUR", PFloat (Fin (7 # 8)))])]).

(** A tick on which the provider quotes [q] naira to the dollar and
    Telegram accepts the message. *)
Definition tick_at (q : Q) : tick := Tick (rates_body (PFloat (Fin q))) true.

Definition usd_job (threshold : Q) : job := Job 7 ("USD/NGN", Fin threshold).

(** User 7 sets an alert at 850, starts monitoring, then replaces the
    alert by one at 900 and starts monitoring again. *)
Definition replaced : bot :=
  run initial [AlertCommand 7 7 "/alert USD/NGN 850"; ScheduleButton 7 7;
               AlertCommand 7 7 "/alert USD/NGN 900"; ScheduleButton 7 7].

(** User 7 sets an alert and presses the monitoring button twice. *)
Definition scheduled_twice : bot :=
  run initial [AlertCommand 7 7 "/alert USD/NGN 850"; ScheduleButton 7 7;
               ScheduleButton 7 7].

(** *** The [/rate] command and further notions *)

(** [rate]: the command answers with the text of the "get_rates" button,
    as a new message. *)
Definition rate (chat : Z) (r : provider_response) (b : bot) : bot :=
  match rates_text r with
  | Ok message => answer chat message b
  | Raise _ => b
  end.

Definition chars (s : string) : list ascii := list_ascii_of_string s.

(** A word: not empty and without whitespace. *)
Definition word (s : string) : Prop :=
  s ≠ "" ∧ Forall (λ c, is_space c = false) (chars s).

Definition is_lower (c : ascii) : bool :=
  let n := N_of_ascii c in ((97 <=? n) && (n <=? 122))%N.

(** The words of a message put back together, one space between them. *)
Fixpoint join_words (ws : list string) : string :=
  match ws with
  | [] => ""
  | [w] => w
  | w :: ws' => w +:+ " " +:+ join_words ws'
  end.

(** The number a run of decimal digits denotes, most significant first. *)
Fixpoint digits_value (acc : Z) (ds : list ascii) : Z :=
  match ds with
  | [] => acc
  | c :: ds' => digits_value (10 * acc + default 0 (digit_val c)) ds'
  end.

(** A string of decimal digits, at least one. *)
Definition decimal (s : string) : Prop :=
  s ≠ "" ∧ Forall (λ c, is_Some (digit_val c)) (chars s).

(** A decimal literal as a user types a threshold: an optional minus sign,
    the digits before the point, the digits after it if there is a point,
    and the exponent if there is one, itself with an optional minus
    sign. *)
Record literal : Type := Literal {
  lit_neg : bool;
  lit_int : string;
  lit_frac : option string;
  lit_exp : option (bool * string);
}.

Definition well_formed (l : literal) : Prop :=
  decimal (lit_int l) ∧
  (∀ fr, lit_frac l = Some fr → Forall (λ c, is_Some (digit_val c)) (chars fr)) ∧
  (∀ eneg ed, lit_exp l = Some (eneg, ed) → decimal ed).

(** The literal as it is written. *)
Definition written (l : literal) : string :=
  (if lit_neg l then "-" else "") +:+ lit_int l +:+
  match lit_frac l with
  | Some fr => "." +:+ fr
  | None => ""
  end +:+
  match lit_exp l with
  | Some (eneg, ed) => "e" +:+ (if eneg then "-" else "") +:+ ed
  | None => ""
  end.

(** The digits of the literal, read as one integer, and the power of ten
    that puts the point in its place. *)
Definition lit_digits (l : literal) : Z :=
  digits_value 0 (chars (lit_int l) ++ chars (default "" (lit_frac l))).

Definition lit_power (l : literal) : Z :=
  match lit_exp l with
  | Some (eneg, ed) =>
      if eneg then - digits_value 0 (chars ed) else digits_value 0 (chars ed)
  | None => 0
  end - Z.of_nat (length (chars (default "" (lit_frac l)))).

(** The number the literal denotes: its digits times the power of ten,
    with its sign. *)
Definition lit_value (l : literal) : Q :=
  (if lit_neg l then -1 else 1) * inject_Z (lit_digits l) *
  (10 ^ lit_power l).

(** The float with significand [m] and exponent [e]: [m * 2 ^ e], infinite
    from [2 ^ 1024] on. *)
Definition b64_value (m e : Z) : pyfloat :=
  if 0 <=? e then
    if 2 ^ 1024 <=? m * 2 ^ e then PosInf else Fin (inject_Z (m * 2 ^ e))
  else Fin (Qred (Qmake m (Z.to_pos (2 ^ (- e))))).

(** A binary fraction that a float holds exactly: [n / 2 ^ j] with [n]
    below [2 ^ 53] in magnitude and [j] at most 1074. *)
Definition binary_fraction (q : Q) : Prop :=
  ∃ n j, Z.abs n < 2 ^ 53 ∧ 0 <= j <= 1074 ∧ (q == n # Z.to_pos (2 ^ j))%Q.

(** ASCII text: every character below 128. *)
Definition ascii_only (s : string) : Prop :=
  Forall (λ c, (N_of_ascii c <? 128)%N = true) (chars s).

Definition is_tick (e : event) : bool :=
  match e with
  | JobTick _ _ => true
  | _ => false
  end.

(** An [/alert] command sent by [user]. *)
Definition alert_by (user : Z) (e : event) : bool :=
  match e with
  | AlertCommand u _ _ => bool_decide (u = user)
  | _ => false
  end.

(** ** Facts about the built-ins *)

(** The built-ins on the values where Python's answer is not the obvious
    one. *)
Example truthiness :
  truthy PNone = false ∧ truthy (PDict []) = false ∧
  truthy (PDict [("USD/NGN", PInt 0)]) = true ∧
  truthy (PInt 0) = false ∧ truthy (PInt (-1)) = true ∧
  truthy (PBool false) = false ∧
  truthy (PFloat (Fin 0)) = false ∧ truthy (PFloat NaN) = true ∧
  truthy (PFloat NegInf) = true ∧
  truthy (PStr "") = false ∧ truthy (PStr "N/A") = true ∧
  truthy (PList []) = false ∧ truthy (PList [PNone]) = true.
Proof. repeat apply conj; reflexivity. Qed.

Example comparisons :
  f_ge NaN NaN = false ∧ f_ge (Fin 1) NaN = false ∧ f_ge NaN (Fin 1) = false ∧
  f_ge PosInf PosInf = true ∧ f_ge NegInf NegInf = true ∧
  f_ge (Fin 1) NegInf = true ∧ f_ge NegInf (Fin 1) = false ∧
  f_ge (Fin 1) PosInf = false ∧ f_ge (Fin 850) (Fin 850) = true ∧
  py_ge_float (PInt (10 ^ 400)) PosInf = Ok false ∧
  py_ge_float (PInt (2 ^ 53 + 1)) (Fin (inject_Z (2 ^ 53))) = Ok true ∧
  py_ge_float (PFloat (Fin (inject_Z (2 ^ 53)))) (Fin (inject_Z (2 ^ 53 + 1)))
    = Ok false ∧
  py_ge_float (PStr "N/A") (Fin 1) = Raise TypeError ∧
  and_ge PNone (Fin 1) = Ok false ∧ and_ge (PInt 0) (Fin (-1)) = Ok false ∧
  and_ge (PStr "N/A") (Fin 1) = Raise TypeError.
Proof. repeat apply conj; vm_compute; reflexivity. Qed.

Example divisions :
  py_truediv (PInt 1650) (PFloat (Fin (3 # 4))) = Ok (PFloat (Fin 2200)) ∧
  py_truediv (PInt 1) (PInt 3) = Ok (PFloat (Fin (6004799503160661 # 2 ^ 54))) ∧
  py_truediv (PInt (10 ^ 400)) (PInt (10 ^ 399)) = Ok (PFloat (Fin 10)) ∧
  py_truediv (PInt 1650) (PInt (10 ^ 400)) = Ok (PFloat (Fin 0)) ∧
  py_truediv (PInt (2 ^ 1024)) (PInt 1) = Raise OverflowError ∧
  py_truediv (PInt (10 ^ 400)) (PInt 0) = Raise ZeroDivisionError ∧
  py_truediv (PInt (10 ^ 400)) (PFloat (Fin 0)) = Raise OverflowError ∧
  py_truediv (PFloat (Fin 1)) (PInt (10 ^ 400)) = Raise OverflowError ∧
  py_truediv (PFloat (Fin 0)) (PInt 0) = Raise ZeroDivisionError ∧
  py_truediv (PBool true) (PInt 2) = Ok (PFloat (Fin (1 # 2))) ∧
  py_truediv (PStr "N/A") (PInt 0) = Raise TypeError ∧
  py_truediv (PInt 1) PNone = Raise TypeError ∧
  py_truediv (PInt 1) (PInt (2 ^ 1075)) = Ok (PFloat (Fin 0)) ∧
  py_truediv (PInt 3) (PInt (2 ^ 1075)) = Ok (PFloat (Fin (1 # 2 ^ 1073))) ∧
  py_truediv (PFloat (Fin 1)) (PFloat PosInf) = Ok (PFloat (Fin 0)) ∧
  py_truediv (PFloat PosInf) (PFloat NegInf) = Ok (PFloat NaN) ∧
  py_truediv (PFloat PosInf) (PFloat (Fin (-2))) = Ok (PFloat NegInf) ∧
  py_truediv (PFloat NegInf) (PFloat (Fin (-2))) = Ok (PFloat PosInf) ∧
  py_truediv (PFloat NaN) (PFloat (Fin 2)) = Ok (PFloat NaN) ∧
  py_truediv (PFloat (Fin (inject_Z (2 ^ 1023)))) (PFloat (Fin (1 # 2)))
    = Ok (PFloat PosInf).
Proof. repeat apply conj; vm_compute; reflexivity. Qed.

Example formats :
  format_2f (PFloat (Fin (1701 # 2))) = Ok (PFloat (Fin (1701 # 2))) ∧
  format_2f (PFloat NaN) = Ok (PFloat NaN) ∧
  format_2f (PInt 1650) = Ok (PInt 1650) ∧
  format_2f (PBool true) = Ok (PBool true) ∧
  format_2f (PInt (2 ^ 1024 - 2 ^ 970 - 1)) = Ok (PInt (2 ^ 1024 - 2 ^ 970 - 1)) ∧
  format_2f (PInt (2 ^ 1024 - 2 ^ 970)) = Raise OverflowError ∧
  format_2f (PInt (- 10 ^ 400)) = Raise OverflowError ∧
  format_2f (PStr "N/A") = Raise ValueError ∧
  format_2f PNone = Raise TypeError ∧
  format_2f (PDict []) = Raise TypeError.
Proof. repeat apply conj; vm_compute; reflexivity. Qed.

Example lookups :
  py_get (PDict [("a", PInt 1); ("a", PInt 2)]) "a" PNone = Ok (PInt 1) ∧
  py_get (PDict [("a", PInt 1)]) "b" (PStr "N/A") = Ok (PStr "N/A") ∧
  py_get (PList []) "a" PNone = Raise AttributeError ∧
  py_get PNone "a" PNone = Raise AttributeError ∧
  py_getitem [("a", PInt 1)] "b" = Raise KeyError ∧
  py_index ["/alert"; "usd"] 1 = Ok "usd" ∧
  py_index ["/alert"; "usd"] 2 = (Raise IndexError : result string).
Proof. repeat apply conj; reflexivity. Qed.

Example words :
  py_split "/alert usd/ngn 850" = ["/alert"; "usd/ngn"; "850"] ∧
  py_split "  /alert   usd/ngn  " = ["/alert"; "usd/ngn"] ∧
  py_split "" = [] ∧
  py_split (String "009" "/alert" +:+ String "010" "usd" +:+ String "011" "1"
            +:+ String "012" "2" +:+ String "013" "3" +:+ String "028" "4"
            +:+ String "029" "5" +:+ String "030" "6" +:+ String "031" "7")
    = ["/alert"; "usd"; "1"; "2"; "3"; "4"; "5"; "6"; "7"] ∧
  py_split (String "008" "a" +:+ String "014" "b" +:+ String "027" "c"
            +:+ String "033" "d")
    = [String "008" "a" +:+ String "014" "b" +:+ String "027" "c"
       +:+ String "033" "d"] ∧
  py_upper "usd/ngn" = "USD/NGN" ∧ py_upper "Az09_{`@[" = "AZ09_{`@[" ∧
  py_float (String "009" "12" +:+ String "010" (String "013" " ")) = Ok (Fin 12) ∧
  py_float (String "028" "12") = Raise ValueError ∧
  py_float (String "012" "1" +:+ String "011" "") = Ok (Fin 1) ∧
  py_float ("1" +:+ String "031" "") = Raise ValueError.
Proof. repeat apply conj; vm_compute; reflexivity. Qed.

Lemma f_ge_Fin (a b : Q) : f_ge (Fin a) (Fin b) = true ↔ (b <= a)%Q.
Proof. simpl. apply Qle_bool_iff. Qed.

Lemma f_is_zero_Fin (a : Q) : f_is_zero (Fin a) = true ↔ (a == 0)%Q.
Proof. simpl. apply Qeq_bool_iff. Qed.

Lemma truthy_number (v : pyval) (x : pyfloat) :
  as_num v = Some x → truthy v = negb (f_is_zero x).
Proof.
  destruct v as [|b|z|f|s|l|d]; simpl; intros [= <-]; try done.
  - by destruct b.
  - f_equal. cbv [f_is_zero Qeq_bool inject_Z Qnum Qden].
    by rewrite Z.mul_1_r.
Qed.

Lemma as_int_number (v : pyval) (z : Z) : as_int v = Some z → is_number v.
Proof. destruct v; intros [=]; by eexists. Qed.

Lemma finite_or_overflow_raises (x : pyfloat) (e : exn) :
  finite_or_overflow x = Raise e → e = OverflowError.
Proof. destruct x; by intros [=]. Qed.

(** The conversion of a number fails only by overflow. *)
Lemma to_float_number (v : pyval) (x : pyfloat) :
  as_num v = Some x →
  float_valued v ∨ to_float v = Raise OverflowError.
Proof.
  unfold float_valued.
  destruct v as [|b|z|f|s|l|d]; intros [= <-]; cbn [to_float as_int].
  - destruct (finite_or_overflow _) as [f|e] eqn:He; [eauto|].
    right. by rewrite (finite_or_overflow_raises _ _ He).
  - destruct (finite_or_overflow _) as [f|e] eqn:He; [eauto|].
    right. by rewrite (finite_or_overflow_raises _ _ He).
  - eauto.
Qed.

Lemma to_float_raises (v : pyval) (e : exn) :
  to_float v = Raise e → e = TypeError ∨ e = OverflowError.
Proof.
  destruct v as [|b|z|f|s|l|d]; cbn [to_float as_int]; try (intros [= <-]; by left).
  - intros ->%finite_or_overflow_raises. by right.
  - intros ->%finite_or_overflow_raises. by right.
Qed.

(** A quotient is a float, and its operands were numbers. *)
Lemma py_truediv_Ok (a b v : pyval) :
  py_truediv a b = Ok v →
  ∃ f, v = PFloat f ∧ is_number a ∧ is_number b.
Proof.
  unfold py_truediv.
  destruct (as_int a) as [x|] eqn:Ha, (as_int b) as [y|] eqn:Hb.
  - destruct (y =? 0); [done|].
    destruct (finite_or_overflow _) as [f|]; [|done]. intros [= <-].
    exists f. eauto using as_int_number.
  - destruct (as_num a) eqn:Hna, (as_num b) eqn:Hnb; try done.
    destruct (to_float a) as [fa|]; [|done]. cbn.
    destruct (to_float b) as [fb|]; [|done]. cbn.
    destruct (f_is_zero fb); [done|]. intros [= <-].
    eexists. split; [done|]. split; by eexists.
  - destruct (as_num a) eqn:Hna, (as_num b) eqn:Hnb; try done.
    destruct (to_float a) as [fa|]; [|done]. cbn.
    destruct (to_float b) as [fb|]; [|done]. cbn.
    destruct (f_is_zero fb); [done|]. intros [= <-].
    eexists. split; [done|]. split; by eexists.
  - destruct (as_num a) eqn:Hna, (as_num b) eqn:Hnb; try done.
    destruct (to_float a) as [fa|]; [|done]. cbn.
    destruct (to_float b) as [fb|]; [|done]. cbn.
    destruct (f_is_zero fb); [done|]. intros [= <-].
    eexists. split; [done|]. split; by eexists.
Qed.

Lemma py_get_Ok (d : pyval) (k : string) (dflt v : pyval) :
  py_get d k dflt = Ok v →
  ∃ items, d = PDict items ∧ v = default dflt (dict_lookup items k).
Proof. destruct d; simpl; try done. intros [= <-]. eauto. Qed.

(** ** Facts about [fetch_exchange_rates] *)

Lemma py_truediv_raises (a b : pyval) (e : exn) :
  py_truediv a b = Raise e →
  e = TypeError ∨ e = ZeroDivisionError ∨ e = OverflowError.
Proof.
  assert (∀ x y : result pyfloat,
    (x ≫= λ x', y ≫= λ y',
       if f_is_zero y' then Raise ZeroDivisionError
       else Ok (PFloat (f_div x' y'))) = Raise e →
    x = Raise e ∨ y = Raise e ∨ e = ZeroDivisionError) as Hbind.
  { intros [x|ex] [y|ey]; cbn; try (intros [= <-]; by eauto).
    destruct (f_is_zero y); intros [= <-]. eauto. }
  assert (∀ a' b', (to_float a' ≫= λ x', to_float b' ≫= λ y',
       if f_is_zero y' then Raise ZeroDivisionError
       else Ok (PFloat (f_div x' y'))) = Raise e →
       e = TypeError ∨ e = ZeroDivisionError ∨ e = OverflowError) as Hconv.
  { intros a' b' [H|[H|H]]%Hbind; [| |by eauto];
      apply to_float_raises in H as [->| ->]; eauto. }
  unfold py_truediv.
  destruct (as_int a) as [x|], (as_int b) as [y|].
  - destruct (y =? 0); [intros [= <-]; by eauto|].
    destruct (finite_or_overflow _) as [f|e'] eqn:He; [done|].
    apply finite_or_overflow_raises in He as ->. intros [= <-]. eauto.
  - destruct (as_num a), (as_num b);
      first [apply Hconv|intros [= <-]; by eauto].
  - destruct (as_num a), (as_num b);
      first [apply Hconv|intros [= <-]; by eauto].
  - destruct (as_num a), (as_num b);
      first [apply Hconv|intros [= <-]; by eauto].
Qed.

Lemma py_get_raises (d : pyval) (k : string) (dflt : pyval) (e : exn) :
  py_get d k dflt = Raise e → e = AttributeError.
Proof. destruct d; cbn; by intros [= <-]. Qed.

Lemma bind_raises {A B} (m : result A) (f : A → result B) (e : exn) :
  m ≫= f = Raise e → m = Raise e ∨ ∃ a, m = Ok a ∧ f a = Raise e.
Proof. destruct m as [a|e']; cbn; [eauto|]. intros [= <-]. by left. Qed.

(** What the [try] block can raise once the body has been decoded: the
    errors of [get] on a value that is not a dict and of the division. *)
Lemma fetch_try_body_raises (data : pyval) (ex : exn) :
  fetch_try (JsonBody data) = Raise ex →
  ex = AttributeError ∨ ex = TypeError ∨ ex = ZeroDivisionError ∨
  ex = OverflowError.
Proof.
  unfold fetch_try. simpl. intros H.
  repeat (destruct (bind_raises _ _ _ H) as [H'|(? & _ & H')];
          [first [left; by eapply py_get_raises
                 |right; by eapply py_truediv_raises]
          |revert H'; clear; intros H]).
  done.
Qed.

(** None of them is caught: they leave [fetch_exchange_rates]. *)
Lemma fetch_raises (r : provider_response) (ex : exn) :
  fetch_exchange_rates r = Raise ex →
  ex = AttributeError ∨ ex = TypeError ∨ ex = ZeroDivisionError ∨
  ex = OverflowError.
Proof.
  unfold fetch_exchange_rates. destruct r as [|data]; [done|].
  destruct (fetch_try (JsonBody data)) as [|ex'] eqn:Ht; [done|].
  apply fetch_try_body_raises in Ht.
  destruct Ht as [->|[->|[->| ->]]]; intros [= <-]; auto.
Qed.

(** What the fetch returns when it returns: [None] for a failed request,
    otherwise the three pairs, computed from the provider's rates. *)
Lemma fetch_returns (r : provider_response) (v : pyval) :
  fetch_exchange_rates r = Ok v →
  (r = RequestFails ∧ v = PNone) ∨
  ∃ data rates ngn gbp eur,
    r = JsonBody data ∧
    py_get data "rates" (PDict []) = Ok (PDict rates) ∧
    ngn = default (PStr "N/A") (dict_lookup rates "NGN") ∧
    is_number ngn ∧
    py_truediv ngn (default (PInt 1) (dict_lookup rates "GBP"))
      = Ok (PFloat gbp) ∧
    py_truediv ngn (default (PInt 1) (dict_lookup rates "EUR"))
      = Ok (PFloat eur) ∧
    v = PDict [("USD/NGN", ngn); ("GBP/NGN", PFloat gbp);
               ("EUR/NGN", PFloat eur)].
Proof.
  destruct r as [|data]; [intros [= <-]; by left|].
  unfold fetch_exchange_rates.
  destruct (fetch_try (JsonBody data)) as [v'|ex] eqn:Htry.
  2:{ by destruct (fetch_try_body_raises _ _ Htry) as [->|[->|[->| ->]]]. }
  intros [= ->]. right. revert Htry. unfold fetch_try. simpl.
  destruct (py_get data "rates" (PDict [])) as [rates|] eqn:Hr; simpl; [|done].
  destruct rates as [| | | | | |items]; simpl; try done.
  destruct (py_truediv _ (default (PInt 1) (dict_lookup items "GBP")))
    as [gv|] eqn:Hg; simpl; [|done].
  destruct (py_truediv _ (default (PInt 1) (dict_lookup items "EUR")))
    as [ev|] eqn:He; simpl; [|done].
  intros [= <-].
  destruct (py_truediv_Ok _ _ _ Hg) as (g & -> & Hn & _).
  destruct (py_truediv_Ok _ _ _ He) as (e & -> & _ & _).
  by eexists data, items, _, g, e.
Qed.

(** The shape of what the fetch returns. *)
Lemma fetch_snapshot (r : provider_response) (v : pyval) :
  fetch_exchange_rates r = Ok v →
  v = PNone ∨
  ∃ usd gbp eur,
    is_number usd ∧
    v = PDict [("USD/NGN", usd); ("GBP/NGN", PFloat gbp);
               ("EUR/NGN", PFloat eur)].
Proof.
  intros [[_ ->]|(? & ? & ngn & g & e & _ & _ & _ & Hn & _ & _ & ->)]
    %fetch_returns; [by left|right]. by exists ngn, g, e.
Qed.

Lemma fetch_returns_shape (r : provider_response) (v : pyval) :
  fetch_exchange_rates r = Ok v → v = PNone ∨ ∃ snapshot, v = PDict snapshot.
Proof. intros [->|(? & ? & ? & _ & ->)]%fetch_snapshot; eauto. Qed.

(** Every value of a returned snapshot is a number. *)
Lemma observed_rate_number (t : tick) (pair : string) (v : pyval) :
  observed_rate t pair = Some v → is_number v.
Proof.
  unfold observed_rate, snapshot_rate, is_number.
  destruct (fetch_exchange_rates (response t)) as [rates|] eqn:Hf; [|done].
  apply fetch_snapshot in Hf as [->|(usd & g & e & Hn & ->)]; [done|].
  cbn [dict_lookup].
  repeat (destruct (String.eqb _ pair); [intros [= <-]; by eauto|]).
  done.
Qed.

(** The rates of the two quotients are floats. *)
Lemma observed_rate_float (t : tick) (pair : string) (v : pyval) :
  observed_rate t pair = Some v → pair ≠ "USD/NGN" → ∃ f, v = PFloat f.
Proof.
  unfold observed_rate, snapshot_rate. intros Hv Hp. revert Hv.
  destruct (fetch_exchange_rates (response t)) as [rates|] eqn:Hf; [|done].
  apply fetch_snapshot in Hf as [->|(usd & g & e & Hn & ->)]; [done|].
  cbn [dict_lookup]. destruct (String.eqb_spec "USD/NGN" pair); [done|].
  repeat (destruct (String.eqb _ pair); [intros [= <-]; by eauto|]).
  done.
Qed.

(** A pair that is not listed is in no snapshot. *)
Lemma observed_rate_unlisted (t : tick) (pair : string) :
  pair ∉ listed_pairs → observed_rate t pair = None.
Proof.
  intros Hp. unfold observed_rate, snapshot_rate.
  destruct (fetch_exchange_rates (response t)) as [rates|] eqn:Hf; [|done].
  apply fetch_snapshot in Hf as [->|(usd & g & e & Hn & ->)]; [done|].
  cbn [dict_lookup]. unfold listed_pairs in Hp.
  repeat match goal with
         | |- context [String.eqb ?k pair] =>
             destruct (String.eqb_spec k pair) as [<-|_];
             [exfalso; apply Hp; set_solver|]
         end.
  done.
Qed.

(** ** Facts about [check_alerts] *)

(** Formatting a number for the message succeeds exactly when the number
    has a float value; otherwise it overflows. *)
Lemma format_2f_number (v : pyval) (x : pyfloat) :
  as_num v = Some x →
  (float_valued v ∧ format_2f v = Ok v) ∨
  (¬ float_valued v ∧ format_2f v = Raise OverflowError).
Proof.
  intros Hx. unfold format_2f. rewrite Hx.
  destruct (to_float_number v x Hx) as [[f Hf]|Hf]; rewrite Hf; cbn.
  - left. split; [by exists f|done].
  - right. split; [|done]. intros [f' Hf']. congruence.
Qed.

(** The callback, one case per path through its body. *)
Lemma run_tick_unfold (j : job) (t : tick) :
  run_tick j t =
  match fetch_exchange_rates (response t) with
  | Raise e => (Raise e, no_effects)
  | Ok rates =>
      if truthy rates then
        match py_get rates (alert_of j).1 PNone with
        | Raise e => (Raise e, no_effects)
        | Ok current_rate =>
            match and_ge current_rate (alert_of j).2 with
            | Raise e => (Raise e, no_effects)
            | Ok true =>
                match format_2f current_rate with
                | Raise e => (Raise e, no_effects)
                | Ok _ =>
                    let m := Message (user_id j) (alert_of j).1
                               current_rate (alert_of j).2 in
                    if accepted t then (Ok (), Effects [m] [m] true)
                    else (Raise TelegramError, Effects [m] [] false)
                end
            | Ok false => (Ok (), no_effects)
            end
        end
      else (Ok (), no_effects)
  end.
Proof.
  unfold run_tick, check_alerts. destruct j as [u [p T]]. simpl.
  unfold mbind, io_bind, lift.
  destruct (fetch_exchange_rates (response t)) as [rates|]; [|done].
  destruct (truthy rates); [|done].
  destruct (py_get rates p PNone) as [cr|]; [|done].
  destruct (and_ge cr T) as [[]|]; try done.
  destruct (format_2f cr); [|done].
  unfold send_message. by destruct (accepted t).
Qed.

(** On a tick that meets the trigger condition with a rate the message can
    show, the callback calls [send_message]; the removal follows a
    delivered message only. *)
Lemma run_tick_hit (j : job) (t : tick) :
  hit j t →
  run_tick j t =
    if accepted t
    then (Ok (), Effects [alert_message j t] [alert_message j t] true)
    else (Raise TelegramError, Effects [alert_message j t] [] false).
Proof.
  intros [(v & x & Hv & Hx & Hz & Hge) (v' & Hv' & Hfl)].
  rewrite Hv in Hv'. injection Hv' as <-. rewrite run_tick_unfold.
  unfold alert_message. rewrite Hv. revert Hv. unfold observed_rate, snapshot_rate.
  destruct (fetch_exchange_rates (response t)) as [[| | | | | |snap]|]; try done.
  intros Hv. cbn [py_get]. rewrite Hv. cbn [from_option id].
  destruct snap; [done|]. cbn [truthy].
  unfold and_ge, py_ge_float. rewrite (truthy_number _ _ Hx), Hz, Hx, Hge.
  cbn [negb].
  destruct (format_2f_number v x Hx) as [[_ ->]|[Hn _]]; [done|].
  by destruct Hn.
Qed.

(** When the trigger condition is met for a rate too large to show, the
    callback ends with [OverflowError] before [send_message]. *)
Lemma run_tick_unshowable (j : job) (t : tick) (v : pyval) :
  trigger j t → observed_rate t (alert_of j).1 = Some v → ¬ float_valued v →
  run_tick j t = (Raise OverflowError, no_effects).
Proof.
  intros (v' & x & Hv & Hx & Hz & Hge) Hv' Hfl.
  rewrite Hv in Hv'. injection Hv' as ->. rewrite run_tick_unfold.
  revert Hv. unfold observed_rate, snapshot_rate.
  destruct (fetch_exchange_rates (response t)) as [[| | | | | |snap]|]; try done.
  intros Hv. cbn [py_get]. rewrite Hv. cbn [from_option id].
  destruct snap; [done|]. cbn [truthy].
  unfold and_ge, py_ge_float. rewrite (truthy_number _ _ Hx), Hz, Hx, Hge.
  cbn [negb].
  by destruct (format_2f_number v x Hx) as [[Hy _]|[_ ->]].
Qed.

(** On any other tick the callback has no effect and does not reach
    [send_message]. *)
Lemma run_tick_no_trigger (j : job) (t : tick) :
  ¬ trigger j t →
  (run_tick j t).2 = no_effects ∧ (run_tick j t).1 ≠ Raise TelegramError.
Proof.
  intros Hn. rewrite run_tick_unfold.
  destruct (fetch_exchange_rates (response t)) as [rates|e] eqn:Hf.
  2:{ split; [done|]. simpl. intros [= ->].
      by destruct (fetch_raises _ _ Hf) as [?|[?|[?|?]]]. }
  destruct (fetch_returns_shape _ _ Hf) as [->|[snap ->]]; [done|].
  destruct (truthy (PDict snap)); [|done].
  cbn [py_get].
  destruct (dict_lookup snap (alert_of j).1) as [v|] eqn:Hv;
    cbn [from_option id]; [|done].
  assert (observed_rate t (alert_of j).1 = Some v) as Hobs
    by (unfold observed_rate, snapshot_rate; by rewrite Hf).
  destruct (observed_rate_number _ _ _ Hobs) as [x Hx].
  unfold and_ge, py_ge_float. rewrite (truthy_number _ _ Hx), Hx.
  destruct (f_is_zero x) eqn:Hz; simpl; [done|].
  destruct (f_ge x (alert_of j).2) eqn:Hge; [|done].
  exfalso. apply Hn. by exists v, x.
Qed.

(** The effects of one run: none; or one message passed to
    [send_message], either delivered together with the removal, or
    rejected. *)
Lemma run_tick_effects (j : job) (t : tick) :
  (run_tick j t).2 = no_effects ∨
  (∃ m, (run_tick j t).2 = Effects [m] [m] true) ∨
  (∃ m, (run_tick j t).2 = Effects [m] [] false ∧ accepted t = false).
Proof.
  rewrite run_tick_unfold. repeat case_match; simpl; eauto.
Qed.

Lemma run_job_cons_kept (j : job) (t : tick) (ts : list tick) :
  removed (run_tick j t).2 = false →
  run_job j (t :: ts) = run_tick j t :: run_job j ts.
Proof. intros H. cbn [run_job]. by rewrite H. Qed.

Lemma run_job_cons_armed (j : job) (t : tick) (ts : list tick) :
  (run_tick j t).2 = no_effects →
  run_job j (t :: ts) = run_tick j t :: run_job j ts.
Proof. intros H. apply run_job_cons_kept. by rewrite H. Qed.

(** For finite values the trigger condition is the order of the
    rationals, on rates other than zero; equality triggers. *)
Lemma trigger_finite (j : job) (t : tick) (v : pyval) (q T : Q) :
  observed_rate t (alert_of j).1 = Some v →
  as_num v = Some (Fin q) → (alert_of j).2 = Fin T →
  trigger j t ↔ ¬ (q == 0)%Q ∧ (T <= q)%Q.
Proof.
  intros Hv Hq HT. unfold trigger. rewrite Hv, HT. split.
  - intros (v' & x & [= <-] & Hx & Hz & Hge).
    rewrite Hq in Hx. injection Hx as <-. split.
    + rewrite <- f_is_zero_Fin. by rewrite Hz.
    + by apply f_ge_Fin.
  - intros [Hz Hge]. exists v, (Fin q). repeat split; [done| |by apply f_ge_Fin].
    destruct (f_is_zero (Fin q)) eqn:E; [|done].
    by apply f_is_zero_Fin in E.
Qed.

(** A rate at or above a threshold that is above zero is not zero: for
    such thresholds the trigger condition of the callback is the plain
    comparison. *)
Lemma f_ge_positive (x T : pyfloat) :
  f_positive T → f_ge x T = true → f_is_zero x = false.
Proof.
  destruct x as [a| | |], T as [b| | |]; try done.
  intros Hb Hge. apply f_ge_Fin in Hge.
  destruct (f_is_zero (Fin a)) eqn:Hz; [|done].
  apply f_is_zero_Fin in Hz. rewrite Hz in Hge.
  exfalso. by apply (Qlt_not_le 0 b).
Qed.

Lemma spec_trigger_positive (j : job) (t : tick) :
  f_positive (alert_of j).2 → spec_trigger j t ↔ trigger j t.
Proof.
  intros Hpos. split.
  - intros (v & x & Hv & Hx & Hge). exists v, x.
    eauto using f_ge_positive.
  - intros (v & x & Hv & Hx & _ & Hge). by exists v, x.
Qed.

(** A float rate can always be shown. *)
Lemma float_valued_float (f : pyfloat) : float_valued (PFloat f).
Proof. by exists f. Qed.

(** ** The alert engine: one job over its ticks *)

(** Scenario A: threshold 850 and rates 820, 840, 850: the notification
    goes out on the third tick and reports rate 850 and threshold 850. *)
Example scenario_A :
  run_job (usd_job 850) [tick_at 820; tick_at 840; tick_at 850] =
  [(Ok (), no_effects); (Ok (), no_effects);
   (Ok (), Effects [Message 7 "USD/NGN" (PFloat (Fin 850)) (Fin 850)]
                   [Message 7 "USD/NGN" (PFloat (Fin 850)) (Fin 850)] true)].
Proof. vm_compute. reflexivity. Qed.

(** Scenario B: threshold 850 and rates 860, 870: the notification goes
    out on the first tick and the job does not run a second time. *)
Example scenario_B :
  run_job (usd_job 850) [tick_at 860; tick_at 870] =
  [(Ok (), Effects [Message 7 "USD/NGN" (PFloat (Fin 860)) (Fin 850)]
                   [Message 7 "USD/NGN" (PFloat (Fin 860)) (Fin 850)] true)].
Proof. vm_compute. reflexivity. Qed.

(** Scenario C: the fetch fails on the first tick and returns 900 on the
    second. *)
Example scenario_C :
  run_job (usd_job 850) [Tick RequestFails true; tick_at 900] =
  [(Ok (), no_effects);
   (Ok (), Effects [Message 7 "USD/NGN" (PFloat (Fin 900)) (Fin 850)]
                   [Message 7 "USD/NGN" (PFloat (Fin 900)) (Fin 850)] true)].
Proof. vm_compute. reflexivity. Qed.

(** An integer rate too large for a float meets the trigger condition but
    cannot be put in the message: the callback ends with [OverflowError],
    sends nothing and the job stays scheduled. Here NGN, GBP and EUR are
    integers, so the quotients are within range. *)
Example unshowable_rate :
  run_tick (usd_job 850)
    (Tick (JsonBody (PDict [("rates",
       PDict [("NGN", PInt (10 ^ 400)); ("GBP", PInt (10 ^ 399));
              ("EUR", PInt (10 ^ 399))])])) true)
  = (Raise OverflowError, no_effects).
Proof. vm_compute. reflexivity. Qed.

(** With a threshold of zero, which [/alert] accepts, a rate of exactly
    zero is at the threshold and yet ignored: [current_rate and ...] takes
    a zero for an absent rate. *)
Example zero_rate_ignored :
  spec_trigger (Job 7 ("USD/NGN", Fin 0)) (tick_at 0) ∧
  ¬ trigger (Job 7 ("USD/NGN", Fin 0)) (tick_at 0) ∧
  run_tick (Job 7 ("USD/NGN", Fin 0)) (tick_at 0) = (Ok (), no_effects).
Proof.
  split; [|split].
  - exists (PFloat (Fin 0)), (Fin 0). by vm_compute.
  - intros (v & x & Hv & Hx & Hz & _). vm_compute in Hv.
    injection Hv as <-. injection Hx as <-. by vm_compute in Hz.
  - vm_compute. reflexivity.
Qed.

(** C1: for every alert with a threshold above zero and every sequence of
    ticks, the engine fires exactly on the first tick whose snapshot has the
    alert's pair at a rate >= the threshold (equality triggers), the rate
    being one the message can show as a float: on every earlier tick the job
    runs, passes nothing to [send_message] and stays scheduled; on that tick
    it passes the alert message to [send_message], which delivers it, and
    the job is removed, when Telegram accepts the message. *)
Theorem first_trigger_tick
    (j : job) (ticks : list tick) (n : nat) (t : tick) (v : pyval) :
  f_positive (alert_of j).2 →
  ticks !! n = Some t →
  spec_trigger j t →
  observed_rate t (alert_of j).1 = Some v → float_valued v →
  (∀ (m : nat) (t' : tick),
      (m < n)%nat → ticks !! m = Some t' → ¬ spec_trigger j t') →
  (∀ m : nat, (m < n)%nat →
      ∃ r, run_job j ticks !! m = Some (r, no_effects) ∧
           r ≠ Raise TelegramError) ∧
  run_job j ticks !! n =
    Some (if accepted t
          then (Ok (), Effects [alert_message j t] [alert_message j t] true)
          else (Raise TelegramError, Effects [alert_message j t] [] false)).
Proof.
  intros Hpos Hn Ht Hv Hfl Hbefore.
  assert (hit j t) as Hhit.
  { split; [by apply spec_trigger_positive|by exists v]. }
  clear Ht Hv Hfl. revert n Hn Hbefore.
  induction ticks as [|t0 ts IH]; intros n Hn Hbefore; [done|].
  destruct n as [|n].
  - injection Hn as ->. split; [intros m Hm; lia|].
    cbn [run_job]. by rewrite (run_tick_hit _ _ Hhit).
  - destruct (run_tick_no_trigger j t0) as [Heff Hres].
    { rewrite <- spec_trigger_positive by done.
      apply (Hbefore 0%nat); [lia|done]. }
    rewrite (run_job_cons_armed _ _ _ Heff).
    destruct (IH n) as [IHbefore IHn]; [done| |].
    { intros m t' Hm Ht'. apply (Hbefore (S m)); [lia|done]. }
    split; [|done].
    intros [|m] Hm.
    + exists (run_tick j t0).1. split; [|done].
      cbn. f_equal. rewrite <- Heff. by destruct (run_tick j t0).
    + apply IHbefore. lia.
Qed.

Lemma first_trigger_tick_witness :
  (∀ m : nat, (m < 2)%nat →
      ∃ r, run_job (usd_job 850) [tick_at 820; tick_at 840; tick_at 850] !! m
             = Some (r, no_effects) ∧ r ≠ Raise TelegramError) ∧
  run_job (usd_job 850) [tick_at 820; tick_at 840; tick_at 850] !! 2%nat =
    Some (Ok (), Effects [alert_message (usd_job 850) (tick_at 850)]
                         [alert_message (usd_job 850) (tick_at 850)] true).
Proof.
  apply (first_trigger_tick (usd_job 850)
           [tick_at 820; tick_at 840; tick_at 850] 2 (tick_at 850)
           (PFloat (Fin 850))).
  - by vm_compute.
  - reflexivity.
  - exists (PFloat (Fin 850)), (Fin 850). by vm_compute.
  - vm_compute. reflexivity.
  - apply float_valued_float.
  - intros m t' Hm Ht' (v & x & Hv & Hx & Hge).
    destruct m as [|[|m]]; [| |lia]; injection Ht' as <-;
      vm_compute in Hv; injection Hv as <-; injection Hx as <-;
      by vm_compute in Hge.
Defined.

(** Over the run of one job at most one notification is delivered. *)
Lemma run_job_at_most_one (j : job) (ticks : list tick) :
  (length (all_delivered (run_job j ticks)) ≤ 1)%nat.
Proof.
  induction ticks as [|t ts IH]; [cbn; lia|].
  cbn [run_job]. unfold all_delivered in *. cbn [fmap list_fmap concat].
  destruct (run_tick_effects j t) as [->|[[m ->]|(m & -> & _)]]; cbn; lia.
Qed.

(** Every message passed to [send_message] is delivered or was rejected,
    one rejection per rejecting tick at most. *)
Lemma run_job_dispatches (j : job) (ticks : list tick) :
  (length (all_dispatched (run_job j ticks)) ≤
   length (rejecting ticks) + length (all_delivered (run_job j ticks)))%nat.
Proof.
  induction ticks as [|t ts IH]; [cbn; lia|].
  cbn [run_job]. unfold all_dispatched, all_delivered, rejecting in *.
  cbn [fmap list_fmap concat]. rewrite !length_app.
  assert (length (filter (λ t, accepted t = false) ts) ≤
          length (filter (λ t, accepted t = false) (t :: ts)))%nat as Hmono.
  { rewrite filter_cons. case_decide; cbn; lia. }
  destruct (run_tick_effects j t) as [->|[[m ->]|(m & -> & Hacc)]];
    cbn [dispatched delivered removed no_effects length app
         fmap list_fmap concat].
  - lia.
  - lia.
  - rewrite filter_cons_True by done. cbn [length]. lia.
Qed.

Lemma on_alert_jobs (user chat : Z) (text : string) (b : bot) :
  jobs (on_alert user chat text b) = jobs b ∧
  notifications (on_alert user chat text b) = notifications b ∧
  job_queue (on_alert user chat text b) = job_queue b.
Proof.
  unfold on_alert. by destruct (alert text (data_of b user)) as [[ud r]|].
Qed.

Lemma schedule_alert_jobs (user chat : Z) (b : bot) :
  ∃ new, jobs (schedule_alert user chat b) = jobs b ++ new ∧
         notifications (schedule_alert user chat b) = notifications b.
Proof.
  unfold schedule_alert.
  destruct (data_of b user !! "alerts") as [a|]; [destruct (job_queue b)|];
    cbn; eauto using app_nil_r.
Qed.

Lemma step_schedule_button (user chat : Z) (b : bot) :
  step b (ScheduleButton user chat) = schedule_alert user chat b.
Proof. reflexivity. Qed.

(** No button removes a job or sends a notification. *)
Lemma button_handler_jobs
    (query_data : string) (user chat : Z) (r : provider_response) (b : bot) :
  ∃ new, jobs (button_handler query_data user chat r b) = jobs b ++ new ∧
         notifications (button_handler query_data user chat r b) = notifications b.
Proof.
  unfold button_handler.
  destruct (String.eqb query_data "get_rates").
  { exists []. rewrite app_nil_r. by destruct (rates_text r). }
  destruct (String.eqb query_data "set_alert").
  { exists []. by rewrite app_nil_r. }
  destruct (String.eqb query_data "schedule_alert").
  { apply schedule_alert_jobs. }
  exists []. by rewrite app_nil_r.
Qed.

(** A removed job stays removed, whatever happens next. *)
Lemma step_retired (b : bot) (jid : nat) (e : event) :
  retired b jid → retired (step b e) jid.
Proof.
  intros [j Hj]. exists j.
  destruct e as [user chat text|query_data user chat r|i t]; cbn [step].
  - by rewrite (proj1 (on_alert_jobs user chat text b)).
  - destruct (button_handler_jobs query_data user chat r b) as (new & -> & _).
    by apply lookup_app_l_Some.
  - unfold on_tick. destruct (jobs b !! i) as [[j' []]|] eqn:Hi; [|done..].
    destruct (run_tick j' t) as [r w]. cbn.
    rewrite list_lookup_insert_ne; [done|]. intros ->. congruence.
Qed.

(** A removed job delivers nothing. *)
Lemma retired_silent (b : bot) (jid : nat) (es : list event) :
  retired b jid → deliveries_by jid b es = 0%nat.
Proof.
  revert b. induction es as [|e es IH]; intros b Hr; [done|].
  cbn [deliveries_by]. rewrite (IH _ (step_retired _ _ e Hr)).
  destruct e as [| |i t]; try done. cbn [delivered_by].
  destruct (decide (i = jid)) as [->|]; [|done].
  destruct Hr as [j Hj]. cbn [step]. unfold on_tick. rewrite Hj. lia.
Qed.

Lemma deliveries_at_most_one (jid : nat) (b : bot) (es : list event) :
  (deliveries_by jid b es ≤ 1)%nat.
Proof.
  revert b. induction es as [|e es IH]; intros b; [cbn; lia|].
  cbn [deliveries_by]. specialize (IH (step b e)).
  destruct e as [| |i t]; try (cbn [delivered_by]; lia).
  cbn [delivered_by]. destruct (decide (i = jid)) as [->|]; [|lia].
  cbn [step] in *. unfold on_tick in *.
  destruct (jobs b !! jid) as [[j []]|] eqn:Hj; try lia.
  destruct (run_tick j t) as [r w] eqn:Hrun.
  destruct (run_tick_effects j t) as [He|[[m He]|(m & He & _)]];
    rewrite Hrun in He; cbn in He; subst w;
    cbn [notifications delivered removed no_effects negb] in *.
  - rewrite app_nil_r in *. lia.
  - rewrite retired_silent.
    + rewrite length_app. cbn. lia.
    + exists j. cbn. apply list_lookup_insert_eq. by eapply lookup_lt_Some.
  - rewrite app_nil_r in *. lia.
Qed.

(** C2, as stated, fails: when Telegram rejects the message the job stays
    scheduled, and the next tick that meets the threshold fires again. *)
Lemma fires_again_after_failed_send :
  ¬ spec_fires_once (usd_job 850)
      [Tick (rates_body (PFloat (Fin 860))) false; tick_at 870].
Proof. unfold spec_fires_once. vm_compute. lia. Qed.

(** C2 (amended): over the whole life of an alert's job at most one
    notification is delivered, whatever the provider answers, whatever
    Telegram does and however the ticks of the job are interleaved with
    commands, buttons and ticks of other jobs: the run that delivers the
    message also removes the job, and a removed job never runs again. The
    job passes a message to [send_message] once more for each attempt
    Telegram rejected, and so only once when Telegram rejects none. *)
Theorem at_most_one_notification :
  (∀ (j : job) (ticks : list tick),
      (length (all_delivered (run_job j ticks)) ≤ 1)%nat ∧
      (length (all_dispatched (run_job j ticks)) ≤
       length (rejecting ticks) + 1)%nat ∧
      (Forall (λ t, accepted t = true) ticks →
       (length (all_dispatched (run_job j ticks)) ≤ 1)%nat)) ∧
  (∀ (jid : nat) (b : bot) (es : list event),
      (deliveries_by jid b es ≤ 1)%nat).
Proof.
  split; [|apply deliveries_at_most_one].
  intros j ticks.
  pose proof (run_job_at_most_one j ticks) as H1.
  pose proof (run_job_dispatches j ticks) as H2.
  split; [done|]. split; [lia|].
  intros Hacc.
  assert (rejecting ticks = []) as Hnone.
  { clear H1 H2. unfold rejecting.
    induction Hacc as [|t ts Ht _ IH]; [done|].
    rewrite filter_cons_False; [exact IH|]. by rewrite Ht. }
  rewrite Hnone in H2. cbn in H2. lia.
Qed.

Lemma at_most_one_notification_witness :
  (length (all_dispatched
             (run_job (usd_job 850) [tick_at 820; tick_at 860; tick_at 870]))
   ≤ 1)%nat.
Proof.
  destruct at_most_one_notification as [H _].
  apply (H (usd_job 850) [tick_at 820; tick_at 860; tick_at 870]).
  repeat constructor.
Defined.

(** C3, as stated, fails: when Telegram rejects the message the callback
    leaves through the exception before [schedule_removal], and the job
    stays scheduled. *)
Lemma failed_delivery_keeps_job :
  ¬ spec_removed_on_trigger (usd_job 850)
      (Tick (rates_body (PFloat (Fin 860))) false).
Proof.
  intros H. assert (removed (run_tick (usd_job 850)
    (Tick (rates_body (PFloat (Fin 860))) false)).2 = true) as Hr.
  { apply H. exists (PFloat (Fin 860)), (Fin 860). by vm_compute. }
  by vm_compute in Hr.
Qed.

(** C3 (amended): on a tick that meets the trigger condition, with a rate
    the message can show as a float, the job is removed exactly when the
    message is delivered. When the delivery raises, nothing is delivered,
    the callback ends with that error, and the job stays scheduled and
    runs again on the next tick. *)
Theorem removal_follows_delivery (j : job) (t : tick) :
  hit j t →
  removed (run_tick j t).2 = accepted t ∧
  (accepted t = true →
     run_tick j t =
       (Ok (), Effects [alert_message j t] [alert_message j t] true) ∧
     ∀ ts, run_job j (t :: ts) = [run_tick j t]) ∧
  (accepted t = false →
     run_tick j t =
       (Raise TelegramError, Effects [alert_message j t] [] false) ∧
     ∀ ts, run_job j (t :: ts) = run_tick j t :: run_job j ts).
Proof.
  intros Ht. pose proof (run_tick_hit _ _ Ht) as Hrun.
  destruct (accepted t); rewrite Hrun; (split; [done|]); split; try done.
  - intros _. split; [done|]. intros ts. cbn [run_job]. by rewrite Hrun.
  - intros _. split; [done|]. intros ts.
    rewrite <- Hrun. apply run_job_cons_kept. by rewrite Hrun.
Qed.

Lemma removal_follows_delivery_witness :
  removed (run_tick (usd_job 850)
             (Tick (rates_body (PFloat (Fin 860))) false)).2 = false ∧
  run_tick (usd_job 850) (Tick (rates_body (PFloat (Fin 860))) false)
    = (Raise TelegramError,
       Effects [alert_message (usd_job 850)
                  (Tick (rates_body (PFloat (Fin 860))) false)] [] false).
Proof.
  destruct (removal_follows_delivery (usd_job 850)
              (Tick (rates_body (PFloat (Fin 860))) false)) as (H1 & _ & H3).
  - split.
    + exists (PFloat (Fin 860)), (Fin 860). by vm_compute.
    + exists (PFloat (Fin 860)). split; [by vm_compute|apply float_valued_float].
  - split; [exact H1|]. apply H3. reflexivity.
Defined.

(** A tick whose fetch fails does not meet the trigger condition. *)
Lemma fetch_fails_no_trigger (j : job) (t : tick) :
  fetch_fails t → ¬ trigger j t.
Proof.
  intros Hf (v & x & Hv & _). unfold observed_rate, snapshot_rate in Hv.
  by destruct Hf as [Hf|[e Hf]]; rewrite Hf in Hv.
Qed.

(** A run without effects leaves the whole application state as it was. *)
Lemma on_tick_no_effects (b : bot) (jid : nat) (t : tick) :
  (∀ j, (run_tick j t).2 = no_effects) → on_tick jid t b = b.
Proof.
  intros He. unfold on_tick.
  destruct (jobs b !! jid) as [[j []]|] eqn:Hj; [|done..].
  specialize (He j). destruct (run_tick j t) as [r w]. simpl in He. subst w.
  cbn [removed delivered no_effects negb].
  rewrite list_insert_id by done. rewrite app_nil_r. by destruct b.
Qed.

(** C7: a tick on which the fetch fails, by returning [None] or by
    raising, is a no-trigger outcome. Nothing is sent, the job stays
    scheduled, and the rest of the run is what it would have been without
    the failed tick: for an alert with a threshold above zero, a later tick
    whose rate is >= the threshold, and can be shown as a float, still
    fires, and the notification is delivered and the job removed when
    Telegram accepts it. The user's stored alert and every other part of
    the application state are untouched by the failed tick. *)
Theorem failed_fetch_is_no_trigger (j : job) (t : tick) :
  fetch_fails t →
  (run_tick j t).2 = no_effects ∧
  (∀ ts, run_job j (t :: ts) = run_tick j t :: run_job j ts) ∧
  (∀ t2 v, f_positive (alert_of j).2 → spec_trigger j t2 →
     observed_rate t2 (alert_of j).1 = Some v → float_valued v →
     run_job j [t; t2] !! 1%nat =
       Some (if accepted t2
             then (Ok (), Effects [alert_message j t2] [alert_message j t2] true)
             else (Raise TelegramError,
                   Effects [alert_message j t2] [] false))) ∧
  (∀ (b : bot) (jid : nat), step b (JobTick jid t) = b).
Proof.
  intros Hf.
  assert (∀ j', (run_tick j' t).2 = no_effects) as He.
  { intros j'. by apply run_tick_no_trigger, fetch_fails_no_trigger. }
  split; [done|]. split; [|split].
  - intros ts. by apply run_job_cons_armed.
  - intros t2 v Hpos Ht2 Hv Hfl. rewrite run_job_cons_armed by done.
    assert (hit j t2) as Hhit.
    { split; [by apply spec_trigger_positive|by exists v]. }
    cbn [run_job]. by rewrite (run_tick_hit _ _ Hhit).
  - intros b jid. by apply on_tick_no_effects.
Qed.

Lemma failed_fetch_is_no_trigger_witness :
  (run_tick (usd_job 850) (Tick RequestFails true)).2 = no_effects ∧
  run_job (usd_job 850) [Tick RequestFails true; tick_at 900] !! 1%nat =
    Some (Ok (), Effects [alert_message (usd_job 850) (tick_at 900)]
                         [alert_message (usd_job 850) (tick_at 900)] true).
Proof.
  destruct (failed_fetch_is_no_trigger (usd_job 850) (Tick RequestFails true))
    as (H1 & _ & H3 & _).
  - left. reflexivity.
  - split; [exact H1|].
    apply (H3 (tick_at 900) (PFloat (Fin 900))).
    + by vm_compute.
    + exists (PFloat (Fin 900)), (Fin 900). by vm_compute.
    + vm_compute. reflexivity.
    + apply float_valued_float.
Defined.

(** A job whose pair is not one of the three keys of the snapshot runs on
    every tick, never delivers a message and is never removed. *)
Lemma unlisted_job_silent (j : job) (ticks : list tick) :
  (alert_of j).1 ∉ listed_pairs →
  (∀ t, ¬ trigger j t) ∧
  length (run_job j ticks) = length ticks ∧
  Forall (λ r, r.2 = no_effects) (run_job j ticks) ∧
  all_delivered (run_job j ticks) = [].
Proof.
  intros Hp.
  assert (∀ t, ¬ trigger j t) as Hn.
  { intros t (v & x & Hv & _). by rewrite observed_rate_unlisted in Hv. }
  split; [done|].
  induction ticks as [|t ts (IH1 & IH2 & IH3)]; [done|].
  destruct (run_tick_no_trigger j t (Hn t)) as [He _].
  rewrite run_job_cons_armed by done. repeat split.
  - cbn. by rewrite IH1.
  - by constructor.
  - unfold all_delivered in *. cbn. by rewrite He, IH3.
Qed.

(** ** The [/alert] handler *)

Lemma py_float_raises (s : string) (e : exn) :
  py_float s = Raise e → e = ValueError.
Proof. unfold py_float. repeat case_match; congruence. Qed.

(** The handler, one case per path: it needs a second and a third word,
    and the third must read as a float. *)
Lemma alert_unfold (text : string) (ud : user_dict) :
  alert text ud =
  match py_split text !! 1%nat, py_split text !! 2%nat with
  | Some w, Some s =>
      match py_float s with
      | Ok f => Ok (<["alerts" := (py_upper w, f)]> ud, AlertSet (py_upper w) f)
      | Raise _ => Ok (ud, Usage)
      end
  | _, _ => Ok (ud, Usage)
  end.
Proof.
  unfold alert, alert_try, py_index.
  destruct (py_split text !! 1%nat) as [w|]; cbn.
  2:{ by destruct (py_split text !! 2%nat). }
  destruct (py_split text !! 2%nat) as [s|]; cbn; [|done].
  destruct (py_float s) as [f|e] eqn:Hf; cbn; [done|].
  by rewrite (py_float_raises _ _ Hf).
Qed.

Lemma upper_char_idemp (c : ascii) : upper_char (upper_char c) = upper_char c.
Proof. destruct c as [[] [] [] [] [] [] [] []]; reflexivity. Qed.

Lemma py_upper_idemp (s : string) : py_upper (py_upper s) = py_upper s.
Proof.
  induction s as [|c s IH]; [done|]. cbn [py_upper].
  by rewrite upper_char_idemp, IH.
Qed.

(** C5, as stated, fails: [float("-5")] succeeds and the handler has no
    check on the sign, so the alert is stored with threshold -5. *)
Lemma negative_threshold_accepted :
  ¬ spec_rejects_non_positive "/alert USD/NGN -5" ∅.
Proof.
  intros H.
  assert (alert "/alert USD/NGN -5" ∅ = Ok (∅, Usage)) as Ha.
  { apply (H "-5" (-5)%Q); [reflexivity|reflexivity|done]. }
  rewrite alert_unfold in Ha.
  replace (py_split "/alert USD/NGN -5") with ["/alert"; "USD/NGN"; "-5"] in Ha
    by (vm_compute; reflexivity).
  cbn [lookup list_lookup] in Ha.
  replace (py_float "-5") with (Ok (Fin (-5))) in Ha by (vm_compute; reflexivity).
  discriminate Ha.
Qed.

(** C5 (amended): the handler accepts every threshold that [float] can
    read, whatever its sign, and stores the alert; it answers with the usage
    text exactly when the message has fewer than three words or the third
    word does not read as a float, and then the user's dict is unchanged. *)
Theorem alert_rejects_only_unreadable (text : string) (ud : user_dict) :
  (∃ w s f,
      py_split text !! 1%nat = Some w ∧ py_split text !! 2%nat = Some s ∧
      py_float s = Ok f ∧
      alert text ud =
        Ok (<["alerts" := (py_upper w, f)]> ud, AlertSet (py_upper w) f)) ∨
  (((length (py_split text) < 3)%nat ∨
    ∃ s, py_split text !! 2%nat = Some s ∧ py_float s = Raise ValueError) ∧
   alert text ud = Ok (ud, Usage)).
Proof.
  rewrite alert_unfold.
  destruct (py_split text !! 2%nat) as [s|] eqn:H2.
  - destruct (py_split text !! 1%nat) as [w|] eqn:H1.
    + destruct (py_float s) as [f|e] eqn:Hf.
      * left. by exists w, s, f.
      * right. split; [|done]. right. exists s.
        by rewrite <- (py_float_raises _ _ Hf).
    + apply lookup_ge_None in H1. apply lookup_lt_Some in H2. lia.
  - right. split; [|by destruct (py_split text !! 1%nat)].
    left. apply lookup_ge_None in H2. lia.
Qed.

(** C10: [alert] stores whatever pair it is given, without looking at the
    pairs the fetcher produces; a job for a stored pair that is not one of
    the three keys of the snapshot runs on every tick, never meets the
    trigger condition, never delivers a message and is never removed. *)
Theorem unlisted_pair_never_triggers
    (text : string) (ud : user_dict) (w s : string) (f : pyfloat)
    (chat : Z) (ticks : list tick) :
  py_split text !! 1%nat = Some w → py_split text !! 2%nat = Some s →
  py_float s = Ok f →
  py_upper w ∉ listed_pairs →
  alert text ud =
    Ok (<["alerts" := (py_upper w, f)]> ud, AlertSet (py_upper w) f) ∧
  (∀ t, ¬ trigger (Job chat (py_upper w, f)) t) ∧
  length (run_job (Job chat (py_upper w, f)) ticks) = length ticks ∧
  all_delivered (run_job (Job chat (py_upper w, f)) ticks) = [].
Proof.
  intros H1 H2 Hf Hp. split.
  - by rewrite alert_unfold, H1, H2, Hf.
  - destruct (unlisted_job_silent (Job chat (py_upper w, f)) ticks Hp)
      as (Hn & Hl & _ & Hd).
    done.
Qed.

Lemma unlisted_pair_never_triggers_witness :
  all_delivered
    (run_job (Job 7 ("USD/GHS", Fin 10)) [tick_at 1650; tick_at 1700]) = [].
Proof.
  apply (unlisted_pair_never_triggers "/alert usd/ghs 10" ∅ "usd/ghs" "10"
           (Fin 10) 7 [tick_at 1650; tick_at 1700]).
  - vm_compute. reflexivity.
  - vm_compute. reflexivity.
  - vm_compute. reflexivity.
  - replace (py_upper "usd/ghs") with "USD/GHS" by (vm_compute; reflexivity).
    unfold listed_pairs. rewrite !elem_of_cons, elem_of_nil.
    intros [H|[H|[H|H]]]; done.
Defined.

(** ** The application: several jobs *)

(** The handlers on the inputs that change nothing but the answers. *)
Example handler_answers :
  step initial (Button "set_alert" 7 8 RequestFails)
    = BotState ∅ true [] [] [(8, AlertFormat)] ∧
  step initial (Button "get_rates" 7 8 RequestFails)
    = BotState ∅ true [] [] [(8, FetchFailed)] ∧
  step initial (Button "get_rates" 7 8 (JsonBody (PDict []))) = initial ∧
  step initial (Button "other" 7 8 RequestFails) = initial ∧
  step initial (ScheduleButton 7 8) = BotState ∅ true [] [] [(8, NoAlertSet)] ∧
  step initial (JobTick 0 (tick_at 860)) = initial ∧
  replies (step initial (AlertCommand 7 8 "/alert usd/ngn")) = [(8, Usage)] ∧
  replies (step initial (AlertCommand 7 8 "/alert usd/ngn 850"))
    = [(8, AlertSet "USD/NGN" (Fin 850))] ∧
  replies (step (BotState ∅ false [] [] [])
             (AlertCommand 7 8 "/alert usd/ngn 850")) 
    = [(8, AlertSet "USD/NGN" (Fin 850))] ∧
  replies (run (BotState ∅ false [] [] [])
             [AlertCommand 7 8 "/alert usd/ngn 850"; ScheduleButton 7 8])
    = [(8, AlertSet "USD/NGN" (Fin 850)); (8, JobQueueUnavailable)] ∧
  jobs (run initial [AlertCommand 7 8 "/alert usd/ngn 850"; ScheduleButton 7 9])
    = [(Job 9 ("USD/NGN", Fin 850), true)] ∧
  rate 8 (rates_body (PFloat (Fin 1650))) initial
    = step initial (Button "get_rates" 7 8 (rates_body (PFloat (Fin 1650)))).
Proof. repeat apply conj; vm_compute; reflexivity. Qed.

Lemma on_tick_scheduled (b : bot) (jid : nat) (j : job) (t : tick) :
  jobs b !! jid = Some (j, true) →
  jobs (on_tick jid t b) = <[jid := (j, negb (removed (run_tick j t).2))]> (jobs b) ∧
  notifications (on_tick jid t b) = notifications b ++ delivered (run_tick j t).2.
Proof.
  intros Hj. unfold on_tick. rewrite Hj. by destruct (run_tick j t).
Qed.

(** The stale notification of C4: after the replacement the first job
    still holds threshold 850; a rate of 860, below the new threshold 900,
    makes it notify. *)
Example stale_notification :
  notifications (step replaced (JobTick 0 (tick_at 860))) =
    [Message 7 "USD/NGN" (PFloat (Fin 860)) (Fin 850)] ∧
  data_of replaced 7 !! "alerts" = Some ("USD/NGN", Fin 900).
Proof. split; vm_compute; reflexivity. Qed.

(** C4, as stated, fails: neither [alert] nor the monitoring button
    cancels a job, so the job created for the replaced alert keeps running
    and notifies against its old threshold. *)
Lemma superseded_job_still_fires : ¬ spec_job_silent replaced 0.
Proof.
  intros H. specialize (H (tick_at 860)).
  vm_compute in H. discriminate H.
Qed.

(** A successful [/alert] leaves the tuple it answers with in the dict. *)
Lemma alert_success_stores
    (text : string) (ud ud' : user_dict) (p : string) (T : pyfloat) :
  alert text ud = Ok (ud', AlertSet p T) → ud' !! "alerts" = Some (p, T).
Proof.
  rewrite alert_unfold. repeat case_match; try done.
  intros [= <- <- <-]. by rewrite lookup_insert_eq.
Qed.

(** C4 (amended): replacing the alert with a new [/alert] followed by the
    monitoring button leaves every job scheduled before in the queue, with
    the alert tuple it captured, and only adds a new job for the new alert.
    The superseded job keeps ticking: each of its later runs delivers what
    [check_alerts] delivers for the old tuple, so a tick that meets the old
    threshold, with a rate the message can show, sends a notification
    carrying the old threshold. *)
Theorem superseded_job_keeps_running
    (b : bot) (user chat : Z) (text : string) (jid : nat) (j : job) :
  jobs b !! jid = Some (j, true) →
  jobs (run b [AlertCommand user chat text; ScheduleButton user chat]) !! jid
    = Some (j, true) ∧
  (∀ ud' p T,
     alert text (data_of b user) = Ok (ud', AlertSet p T) →
     job_queue b = true →
     jobs (run b [AlertCommand user chat text; ScheduleButton user chat])
       = jobs b ++ [(Job chat (p, T), true)]) ∧
  ∀ t : tick,
    notifications
      (run b [AlertCommand user chat text; ScheduleButton user chat;
              JobTick jid t]) =
      notifications b ++ delivered (run_tick j t).2 ∧
    (hit j t → accepted t = true →
     notifications
       (run b [AlertCommand user chat text; ScheduleButton user chat;
               JobTick jid t]) =
       notifications b ++ [alert_message j t]).
Proof.
  intros Hj. cbn [run foldl]. rewrite step_schedule_button. cbn [step].
  destruct (on_alert_jobs user chat text b) as (Hja & Hna & Hqa).
  destruct (schedule_alert_jobs user chat (on_alert user chat text b))
    as (new & Hjs & Hns).
  assert (jobs (schedule_alert user chat (on_alert user chat text b)) !! jid
          = Some (j, true)) as Hj'.
  { rewrite Hjs, Hja. by apply lookup_app_l_Some. }
  split; [done|]. split.
  - intros ud' p T Ha Hq. pose proof (alert_success_stores _ _ _ _ _ Ha) as Hst.
    unfold schedule_alert. rewrite Hqa, Hq, Hja.
    unfold on_alert at 1. rewrite Ha. unfold data_of at 1. cbn [user_data].
    rewrite lookup_insert_eq. cbn [from_option id]. by rewrite Hst.
  - intros t.
    destruct (on_tick_scheduled _ _ _ t Hj') as [_ Hn].
    rewrite Hn, Hns, Hna. split; [done|]. intros Ht Hacc.
    by rewrite (run_tick_hit _ _ Ht), Hacc.
Qed.

Lemma superseded_job_keeps_running_witness :
  jobs replaced !! 0%nat = Some (usd_job 850, true).
Proof.
  apply (superseded_job_keeps_running
           (run initial [AlertCommand 7 7 "/alert USD/NGN 850"; ScheduleButton 7 7])
           7 7 "/alert USD/NGN 900" 0 (usd_job 850)).
  vm_compute. reflexivity.
Defined.

(** The jobs counted for a chat and a pair are the scheduled ones: after
    the job of the replaced alert has fired and was removed, the job of
    the new alert is the only one left. *)
Example scheduled_after_firing :
  scheduled_for 7 "USD/NGN" replaced = [usd_job 850; usd_job 900] ∧
  scheduled_for 7 "USD/NGN" (step replaced (JobTick 0 (tick_at 860)))
    = [usd_job 900] ∧
  scheduled_for 8 "USD/NGN" replaced = [] ∧
  scheduled_for 7 "GBP/NGN" replaced = [].
Proof. repeat apply conj; vm_compute; reflexivity. Qed.

(** C6, as stated, fails: pressing the monitoring button twice creates two
    jobs for the same chat and pair, both scheduled. *)
Lemma second_schedule_adds_job : ¬ spec_single_job scheduled_twice.
Proof.
  intros H. specialize (H 7 "USD/NGN"). vm_compute in H. lia.
Qed.

(** C6 (amended): the monitoring button never refuses because a job is
    already scheduled. Whenever the user has an alert stored and the job
    queue exists, it answers "monitoring started" and adds one more job for
    the stored tuple, next to the jobs already scheduled for the same chat
    and pair. *)
Theorem schedule_always_adds_job
    (b : bot) (user chat : Z) (a : string * pyfloat) :
  data_of b user !! "alerts" = Some a →
  job_queue b = true →
  jobs (step b (ScheduleButton user chat)) = jobs b ++ [(Job chat a, true)] ∧
  replies (step b (ScheduleButton user chat)) =
    replies b ++ [(chat, MonitoringStarted)] ∧
  scheduled_for chat a.1 (step b (ScheduleButton user chat)) =
    scheduled_for chat a.1 b ++ [Job chat a].
Proof.
  intros Ha Hq. rewrite step_schedule_button.
  unfold schedule_alert, scheduled_for.
  rewrite Ha, Hq. cbn [jobs replies]. repeat split.
  rewrite filter_app, fmap_app. f_equal.
  rewrite filter_cons_True by done. done.
Qed.

Lemma schedule_always_adds_job_witness :
  scheduled_for 7 "USD/NGN" scheduled_twice =
    [usd_job 850; usd_job 850].
Proof.
  pose proof (schedule_always_adds_job
    (run initial [AlertCommand 7 7 "/alert USD/NGN 850"; ScheduleButton 7 7])
    7 7 ("USD/NGN", Fin 850)) as H.
  destruct H as (_ & _ & H).
  - vm_compute. reflexivity.
  - reflexivity.
  - exact H.
Defined.

(** ** The rate fetcher *)

(** The outcomes of the fetch on three provider bodies: complete rates, a
    body without NGN, and a failed request. The second quotient is
    1650 / 0.875 rounded to the nearest float. *)
Example fetch_complete :
  fetch_exchange_rates (rates_body (PFloat (Fin 1650))) =
  Ok (PDict [("USD/NGN", PFloat (Fin 1650));
             ("GBP/NGN", PFloat (Fin 2200));
             ("EUR/NGN", PFloat (Fin (4146729567612343 # 2199023255552)))]).
Proof. vm_compute. reflexivity. Qed.

Example fetch_without_ngn :
  fetch_exchange_rates
    (JsonBody (PDict [("rates", PDict [("GBP", PFloat (Fin (3 # 4)))])])) =
  Raise TypeError.
Proof. vm_compute. reflexivity. Qed.

Example fetch_request_fails : fetch_exchange_rates RequestFails = Ok PNone.
Proof. reflexivity. Qed.

(** Positive provider values do not make positive rates: a quotient can
    underflow to zero, and it can overflow to infinity. *)
Example fetch_underflow_overflow :
  fetch_exchange_rates
    (JsonBody (PDict [("rates",
       PDict [("NGN", PFloat (Fin (1 # 2 ^ 600)));
              ("GBP", PFloat (Fin (inject_Z (2 ^ 600))));
              ("EUR", PFloat (Fin (1 # 2 ^ 600)))])]))
  = Ok (PDict [("USD/NGN", PFloat (Fin (1 # 2 ^ 600)));
               ("GBP/NGN", PFloat (Fin 0)); ("EUR/NGN", PFloat (Fin 1))]) ∧
  f_div (Fin (inject_Z (2 ^ 1023))) (Fin (1 # 2)) = PosInf.
Proof. split; vm_compute; reflexivity. Qed.

(** The nearest float to a quotient of positive integers is not below
    zero. *)
Lemma b64_nearest_nonneg (n d : BinNums.positive) :
  f_ge (b64_nearest (Zpos n) (Zpos d)) (Fin 0) = true.
Proof.
  unfold b64_nearest. cbv zeta.
  match goal with |- context [Z.max (?l - 52) (-1074)] => generalize l end.
  intros lg. set (e := Z.max (lg - 52) (-1074)).
  set (num := if 0 <=? e then Z.pos n else Z.pos n * 2 ^ (- e)).
  set (den := if 0 <=? e then Z.pos d * 2 ^ e else Z.pos d).
  assert (0 <= num) as Hnum.
  { unfold num. destruct (Z.leb_spec 0 e); [lia|].
    apply Z.mul_nonneg_nonneg; [lia|]. apply Z.pow_nonneg. lia. }
  assert (0 < den) as Hden.
  { unfold den. destruct (Z.leb_spec 0 e); [|lia].
    apply Z.mul_pos_pos; [lia|]. apply Z.pow_pos_nonneg; lia. }
  assert (0 <= num / den) as Hq by (apply Z.div_pos; lia).
  set (m := if 2 * (num mod den) <? den then num / den
            else if den <? 2 * (num mod den) then num / den + 1
            else if Z.even (num / den) then num / den else num / den + 1).
  assert (0 <= m) as Hm by (unfold m; repeat case_match; lia).
  destruct (Z.leb_spec 0 e) as [He|He].
  - destruct (2 ^ 1024 <=? m * 2 ^ e); [done|].
    apply f_ge_Fin. unfold Qle. cbn.
    assert (0 <= m * 2 ^ e); [|lia].
    apply Z.mul_nonneg_nonneg; [lia|]. apply Z.pow_nonneg. lia.
  - apply f_ge_Fin. rewrite Qred_correct. unfold Qle. cbn. lia.
Qed.

Lemma b64_round_nonneg (q : Q) :
  (0 <= q)%Q → f_ge (b64_round q) (Fin 0) = true.
Proof.
  destruct q as [[|n|n] d]; unfold b64_round; cbn [Qnum Qden].
  - done.
  - intros _. apply b64_nearest_nonneg.
  - unfold Qle. cbn. lia.
Qed.

(** A number above zero converts to a float that is finite and not below
    zero, when it converts at all. *)
Lemma to_float_positive (v : pyval) (x : pyfloat) :
  positive v → to_float v = Ok x → ∃ r, x = Fin r ∧ (0 <= r)%Q.
Proof.
  intros (q & Hv & Hq). destruct v as [|c|z|g|s|l|d]; try done.
  - destruct c; [vm_compute; intros [= <-]; by eexists|].
    injection Hv as <-. by apply Qlt_irrefl in Hq.
  - cbn [to_float as_int]. injection Hv as <-.
    pose proof (b64_round_nonneg (inject_Z z) (Qlt_le_weak _ _ Hq)) as Hz.
    destruct (b64_round (inject_Z z)) as [r| | |]; try done.
    intros [= <-]. exists r. split; [done|]. by apply f_ge_Fin.
  - cbn. injection Hv as ->. intros [= <-]. exists q.
    split; [done|]. by apply Qlt_le_weak.
Qed.

Lemma f_div_nonneg (a b : Q) :
  (0 <= a)%Q → (0 <= b)%Q → f_is_zero (Fin b) = false →
  f_ge (f_div (Fin a) (Fin b)) (Fin 0) = true.
Proof.
  intros Ha Hb Hz. cbn [f_div]. apply b64_round_nonneg.
  assert (0 < b)%Q as Hpos.
  { apply Qle_lt_or_eq in Hb as [?|Heq]; [done|].
    exfalso. assert (f_is_zero (Fin b) = true); [|congruence].
    apply f_is_zero_Fin. by symmetry. }
  apply Qle_shift_div_l; [done|]. by rewrite Qmult_0_l.
Qed.

(** The quotient of two numbers above zero is not below zero and is not
    NaN. *)
Lemma py_truediv_nonneg (a b : pyval) (f : pyfloat) :
  positive a → positive b →
  py_truediv a b = Ok (PFloat f) → f_ge f (Fin 0) = true.
Proof.
  intros Hpa Hpb.
  assert ((x ← to_float a; y ← to_float b;
           if f_is_zero y then Raise ZeroDivisionError
           else Ok (PFloat (f_div x y))) = Ok (PFloat f) →
          f_ge f (Fin 0) = true) as Hfloat.
  { destruct (to_float a) as [fa|] eqn:Hfa; [|done]. cbn.
    destruct (to_float b) as [fb|] eqn:Hfb; [|done]. cbn.
    destruct (f_is_zero fb) eqn:Hz; [done|]. intros [= <-].
    destruct (to_float_positive _ _ Hpa Hfa) as (ra & -> & Hra).
    destruct (to_float_positive _ _ Hpb Hfb) as (rb & -> & Hrb).
    by apply f_div_nonneg. }
  destruct Hpa as (qa & Ha & Hqa), Hpb as (qb & Hb & Hqb).
  unfold py_truediv.
  destruct (as_int a) as [x|] eqn:Hxa, (as_int b) as [y|] eqn:Hyb;
    rewrite ?Ha, ?Hb; try exact Hfloat.
  destruct (y =? 0); [done|].
  assert (0 <= inject_Z x / inject_Z y)%Q as Hquot.
  { assert (qa = inject_Z x ∧ qb = inject_Z y) as [-> ->].
    { destruct a as [|[]| | | | |], b as [|[]| | | | |]; try done;
        injection Hxa as <-; injection Hyb as <-;
        injection Ha as <-; injection Hb as <-; done. }
    apply Qle_shift_div_l; [done|]. rewrite Qmult_0_l. by apply Qlt_le_weak. }
  pose proof (b64_round_nonneg _ Hquot) as Hr.
  destruct (b64_round (inject_Z x / inject_Z y)); try done.
  by intros [= <-].
Qed.

(** On two finite floats the quotient is the exact quotient rounded to the
    nearest float. *)
Lemma py_truediv_floats (x g : Q) (f : pyfloat) :
  py_truediv (PFloat (Fin x)) (PFloat (Fin g)) = Ok (PFloat f) →
  f = b64_round (x / g).
Proof.
  unfold py_truediv. cbn [as_int as_num to_float].
  change ((if f_is_zero (Fin g) then Raise ZeroDivisionError
           else Ok (PFloat (f_div (Fin x) (Fin g)))) = Ok (PFloat f)
          → f = b64_round (x / g)).
  destruct (f_is_zero (Fin g)); [done|]. by intros [= <-].
Qed.

(** C8, as stated, fails: the fetcher does not look at the sign of what
    the provider sends; a body quoting NGN at 0 yields a snapshot whose
    three rates are 0. *)
Lemma zero_rate_snapshot : ¬ spec_fetch_total (rates_body (PInt 0)).
Proof.
  intros [H|(snapshot & H & Hpos)]; [by vm_compute in H|].
  vm_compute in H. injection H as <-.
  destruct (Hpos "USD/NGN") as (q & Hq & _).
  - unfold listed_pairs. apply elem_of_cons. by left.
  - by vm_compute in Hq.
Qed.

(** It also fails on positive provider values: with NGN at 2^-600 and GBP
    at 2^600 the quotient underflows, and the snapshot holds 0.0 for
    GBP/NGN. *)
Lemma underflow_rate_snapshot :
  ¬ spec_fetch_total
      (JsonBody (PDict [("rates",
         PDict [("NGN", PFloat (Fin (1 # 2 ^ 600)));
                ("GBP", PFloat (Fin (inject_Z (2 ^ 600))));
                ("EUR", PFloat (Fin (1 # 2 ^ 600)))])])).
Proof.
  intros [H|(snapshot & H & Hpos)]; [by vm_compute in H|].
  destruct fetch_underflow_overflow as [Hf _]. rewrite Hf in H.
  injection H as <-.
  destruct (Hpos "GBP/NGN") as (q & Hq & Hlt).
  - unfold listed_pairs. rewrite !elem_of_cons. right. by left.
  - cbn in Hq. injection Hq as <-. by apply Qlt_irrefl in Hlt.
Qed.

(** C8 (amended): whenever the fetch returns, it returns [None], and then
    the request itself failed, or a complete snapshot: exactly the three
    listed pairs, each with a number, USD/NGN being the provider's NGN
    value and the other two floats, its quotients by the GBP and EUR
    values (1 when absent); on finite floats the quotient is the exact one
    rounded to the nearest float. No returned snapshot holds a
    placeholder. When the provider's three values are above zero, so is
    USD/NGN, and the two quotients are not below zero and not NaN; they
    can be 0.0 and infinity. *)
Theorem fetch_returns_complete (r : provider_response) (v : pyval) :
  fetch_exchange_rates r = Ok v →
  (r = RequestFails ∧ v = PNone) ∨
  ∃ (data : pyval) (rates : list (string * pyval)) (ngn : pyval)
    (gbp eur : pyfloat),
    r = JsonBody data ∧
    py_get data "rates" (PDict []) = Ok (PDict rates) ∧
    ngn = default (PStr "N/A") (dict_lookup rates "NGN") ∧
    is_number ngn ∧
    py_truediv ngn (default (PInt 1) (dict_lookup rates "GBP"))
      = Ok (PFloat gbp) ∧
    py_truediv ngn (default (PInt 1) (dict_lookup rates "EUR"))
      = Ok (PFloat eur) ∧
    v = PDict [("USD/NGN", ngn); ("GBP/NGN", PFloat gbp);
               ("EUR/NGN", PFloat eur)] ∧
    (∀ pair, pair ∈ listed_pairs →
       ∃ rate, snapshot_rate r pair = Some rate ∧ is_number rate) ∧
    (∀ x g, ngn = PFloat (Fin x) →
       dict_lookup rates "GBP" = Some (PFloat (Fin g)) →
       gbp = b64_round (x / g)) ∧
    (∀ x e, ngn = PFloat (Fin x) →
       dict_lookup rates "EUR" = Some (PFloat (Fin e)) →
       eur = b64_round (x / e)) ∧
    (positive ngn →
     positive (default (PInt 1) (dict_lookup rates "GBP")) →
     positive (default (PInt 1) (dict_lookup rates "EUR")) →
     f_ge gbp (Fin 0) = true ∧ f_ge eur (Fin 0) = true).
Proof.
  intros Hf.
  destruct (fetch_returns _ _ Hf)
    as [?|(data & rates & ngn & gbp & eur & -> & Hr & Hn & Hnum & Hg & He
           & ->)]; [by left|].
  right. exists data, rates, ngn, gbp, eur. repeat (split; [done|]).
  assert (∀ pair, snapshot_rate (JsonBody data) pair =
            dict_lookup [("USD/NGN", ngn); ("GBP/NGN", PFloat gbp);
                         ("EUR/NGN", PFloat eur)] pair) as Hobs.
  { intros pair. unfold snapshot_rate. by rewrite Hf. }
  split; [|split; [|split]].
  - intros pair Hp. rewrite Hobs.
    unfold listed_pairs in Hp. rewrite !elem_of_cons, elem_of_nil in Hp.
    destruct Hp as [->|[->|[->|[]]]]; cbn; eexists; (split; [done|]);
      unfold is_number; eauto.
  - intros x g Hx Hlook. rewrite Hx, Hlook in Hg.
    by apply py_truediv_floats.
  - intros x e Hx Hlook. rewrite Hx, Hlook in He.
    by apply py_truediv_floats.
  - intros Hpn Hpg Hpe. split.
    + exact (py_truediv_nonneg _ _ _ Hpn Hpg Hg).
    + exact (py_truediv_nonneg _ _ _ Hpn Hpe He).
Qed.

Lemma fetch_returns_complete_witness :
  ∃ (data : pyval) (rates : list (string * pyval)) (ngn : pyval)
    (gbp eur : pyfloat),
    rates_body (PFloat (Fin 1650)) = JsonBody data ∧
    py_get data "rates" (PDict []) = Ok (PDict rates) ∧
    ngn = default (PStr "N/A") (dict_lookup rates "NGN") ∧
    PDict [("USD/NGN", PFloat (Fin 1650));
           ("GBP/NGN", PFloat (Fin 2200));
           ("EUR/NGN", PFloat (Fin (4146729567612343 # 2199023255552)))] =
    PDict [("USD/NGN", ngn); ("GBP/NGN", PFloat gbp);
           ("EUR/NGN", PFloat eur)] ∧
    gbp = b64_round (1650 / (3 # 4)).
Proof.
  destruct (fetch_returns_complete (rates_body (PFloat (Fin 1650)))
    (PDict [("USD/NGN", PFloat (Fin 1650));
            ("GBP/NGN", PFloat (Fin 2200));
            ("EUR/NGN", PFloat (Fin (4146729567612343 # 2199023255552)))]))
    as [[H _]|(data & rates & ngn & gbp & eur
               & Hd & Hr & Hn & _ & _ & _ & Hv & _ & Hg & _)].
  - vm_compute. reflexivity.
  - discriminate H.
  - exists data, rates, ngn, gbp, eur. repeat (split; [done|]).
    injection Hd as <-. injection Hr as <-.
    apply Hg; [by rewrite Hn|reflexivity].
Defined.

(** ** Facts about strings and [float(s)] *)

Lemma chars_string_of (l : list ascii) : chars (string_of_list_ascii l) = l.
Proof. apply list_ascii_of_string_of_list_ascii. Qed.

Lemma string_of_chars (s : string) : string_of_list_ascii (chars s) = s.
Proof. apply string_of_list_ascii_of_string. Qed.

Lemma chars_app (a b : string) : chars (a +:+ b) = chars a ++ chars b.
Proof.
  unfold chars. induction a as [|c a IH]; [done|].
  change (String c a +:+ b) with (String c (a +:+ b)).
  cbn [list_ascii_of_string]. by rewrite IH.
Qed.

Lemma chars_nonempty (s : string) : s ≠ "" → chars s ≠ [].
Proof. by destruct s. Qed.

(** Every piece [split] returns is a word. *)
Lemma split_from_words (cur : list ascii) (s : string) :
  Forall (λ c, is_space c = false) cur →
  Forall word (split_from cur s).
Proof.
  assert (∀ l, l ≠ [] → Forall (λ c, is_space c = false) l →
               word (string_of_list_ascii (rev l))) as Hword.
  { intros l Hl Hsp. split.
    - intros He. apply (f_equal chars) in He. rewrite chars_string_of in He.
      apply (f_equal (@rev ascii)) in He. rewrite rev_involutive in He. done.
    - rewrite chars_string_of. by apply Forall_rev. }
  revert cur. induction s as [|c s IH]; intros cur Hcur; cbn [split_from].
  - destruct cur as [|c0 cur]; [constructor|].
    constructor; [by apply Hword|constructor].
  - destruct (is_space c) eqn:Hc.
    + destruct cur as [|c0 cur]; [by apply IH|].
      constructor; [by apply Hword|by apply IH].
    + apply IH. by constructor.
Qed.

Lemma upper_char_keeps (c : ascii) :
  is_space (upper_char c) = is_space c ∧ is_lower (upper_char c) = false ∧
  (is_lower c = false → upper_char c = c).
Proof. destruct c as [[] [] [] [] [] [] [] []]; by vm_compute. Qed.

Lemma chars_py_upper (s : string) : chars (py_upper s) = upper_char <$> chars s.
Proof.
  unfold chars. induction s as [|c s IH]; [done|].
  cbn [py_upper list_ascii_of_string]. rewrite IH. done.
Qed.

Lemma split_from_word (cur : list ascii) (w s : string) :
  Forall (λ c, is_space c = false) (chars w) →
  split_from cur (w +:+ s) = split_from (rev (chars w) ++ cur) s.
Proof.
  revert cur. induction w as [|c w IH]; intros cur Hw; [done|].
  cbn in Hw. apply Forall_cons in Hw as [Hc Hw].
  change (String c w +:+ s) with (String c (w +:+ s)).
  cbn [split_from]. rewrite Hc, IH by done.
  cbn [chars list_ascii_of_string rev]. by rewrite <- app_assoc.
Qed.

Lemma split_from_last_word (w : string) :
  word w → split_from [] w = [w].
Proof.
  intros [Hne Hsp].
  replace w with (w +:+ "") at 1.
  2:{ clear. induction w as [|c w IH]; [done|].
      change (String c w +:+ "") with (String c (w +:+ "")). by rewrite IH. }
  rewrite split_from_word by done. rewrite app_nil_r. cbn [split_from].
  destruct (rev (chars w)) as [|c l] eqn:Hr.
  - apply (f_equal (@rev ascii)) in Hr. rewrite rev_involutive in Hr.
    exfalso. apply Hne. rewrite <- (string_of_chars w). by rewrite Hr.
  - rewrite <- Hr, rev_involutive. by rewrite string_of_chars.
Qed.

(** Splitting undoes joining. *)
Lemma py_split_join (ws : list string) :
  Forall word ws → py_split (join_words ws) = ws.
Proof.
  unfold py_split. induction ws as [|w ws IH]; [done|].
  intros [Hw Hws]%Forall_cons. destruct ws as [|w2 ws].
  { by apply split_from_last_word. }
  change (join_words (w :: w2 :: ws))
    with (w +:+ String " " (join_words (w2 :: ws))).
  destruct Hw as [Hne Hsp]. rewrite split_from_word by done.
  rewrite app_nil_r. cbn [split_from].
  change (is_space " ") with true. cbn match.
  destruct (rev (chars w)) as [|c l] eqn:Hr.
  - apply (f_equal (@rev ascii)) in Hr. rewrite rev_involutive in Hr.
    exfalso. apply Hne. rewrite <- (string_of_chars w). by rewrite Hr.
  - rewrite <- Hr, rev_involutive, string_of_chars. f_equal. by apply IH.
Qed.

Lemma digit_cases (c : ascii) :
  is_Some (digit_val c) →
  c ∈ ["0"; "1"; "2"; "3"; "4"; "5"; "6"; "7"; "8"; "9"]%char.
Proof.
  destruct c as [[] [] [] [] [] [] [] []]; vm_compute; intros [d Hd];
    try discriminate Hd; set_solver.
Qed.

(** Case analysis on a character known to be a digit. *)
Ltac by_digit H :=
  apply digit_cases in H; set_unfold in H;
  destruct H as [->|[->|[->|[->|[->|[->|[->|[->|[->|[->|[]]]]]]]]]]].

Lemma digit_not_space (c : ascii) :
  is_Some (digit_val c) → is_space c = false.
Proof. intros Hc. by_digit Hc; done. Qed.

Lemma strip_no_space (l : list ascii) :
  Forall (λ c, is_space c = false) l → strip l = l.
Proof.
  intros Hl. unfold strip.
  assert (∀ c, is_space c = false → is_c_space c = false) as Hc.
  { intros c. destruct c as [[] [] [] [] [] [] [] []]; by vm_compute. }
  assert (∀ l', Forall (λ c, is_space c = false) l' →
    (fix go (l : list ascii) : list ascii :=
       match l with
       | c :: l' => if is_c_space c then go l' else l
       | [] => []
       end) l' = l') as Hdrop.
  { intros [|c l'] Hl'; [done|]. apply Forall_cons in Hl' as [Hsp _].
    by rewrite (Hc _ Hsp). }
  rewrite (Hdrop l) by done. rewrite Hdrop by by apply Forall_rev.
  apply rev_involutive.
Qed.

(** A run of digits is read to its end: the end of the input, or a
    character that is neither a digit nor an underscore. *)
Lemma digits_from_run (acc : Z) (n : nat) (ds rest : list ascii) :
  Forall (λ c, is_Some (digit_val c)) ds →
  match rest with
  | [] => True
  | c :: _ => digit_val c = None ∧ Ascii.eqb c "_" = false
  end →
  digits_from acc n (ds ++ rest) = (digits_value acc ds, (n + length ds)%nat, rest).
Proof.
  intros Hds Hrest. revert acc n.
  induction Hds as [|c ds [d Hd] _ IH]; intros acc n.
  - cbn [app digits_value length]. rewrite Nat.add_0_r.
    destruct rest as [|c rest]; [done|]. destruct Hrest as [Hc Hu].
    cbn [digits_from]. by rewrite Hc, Hu.
  - cbn [app digits_from digits_value length]. rewrite Hd. cbn [from_option id].
    rewrite IH. by rewrite Nat.add_succ_r.
Qed.

Lemma digitpart_run (ds rest : list ascii) :
  ds ≠ [] → Forall (λ c, is_Some (digit_val c)) ds →
  match rest with
  | [] => True
  | c :: _ => digit_val c = None ∧ Ascii.eqb c "_" = false
  end →
  digitpart (ds ++ rest) = Some (digits_value 0 ds, length ds, rest).
Proof.
  intros Hne Hds Hrest. destruct ds as [|c ds]; [done|].
  apply Forall_cons in Hds as [[d Hd] Hds].
  cbn [app digitpart digits_value length]. rewrite Hd. cbn [from_option id].
  by rewrite digits_from_run.
Qed.

Lemma digits_value_acc (acc : Z) (ds : list ascii) :
  digits_value acc ds = acc * 10 ^ Z.of_nat (length ds) + digits_value 0 ds.
Proof.
  revert acc. induction ds as [|c ds IH]; intros acc.
  - cbn. lia.
  - cbn [digits_value length]. rewrite IH, (IH (10 * 0 + _)).
    rewrite Nat2Z.inj_succ, Z.pow_succ_r by lia. lia.
Qed.

Lemma digits_value_app (a b : list ascii) :
  digits_value 0 (a ++ b) =
  digits_value 0 a * 10 ^ Z.of_nat (length b) + digits_value 0 b.
Proof.
  assert (∀ acc, digits_value acc (a ++ b) = digits_value (digits_value acc a) b)
    as ->.
  { induction a as [|c a IH]; intros acc; [done|]. cbn. apply IH. }
  apply digits_value_acc.
Qed.

(** [scale10 m e] is [m * 10 ^ e] in lowest terms. *)
Lemma Qred_inject_Z (z : Z) : Qred (inject_Z z) = inject_Z z.
Proof.
  unfold Qred, inject_Z.
  pose proof (Z.ggcd_gcd z 1) as Hg.
  pose proof (Z.ggcd_correct_divisors z 1) as Hd.
  destruct (Z.ggcd z 1) as [g [aa bb]]. cbn in Hg. rewrite Z.gcd_1_r in Hg.
  subst g. destruct Hd as [Ha Hb].
  replace aa with z by lia. replace bb with 1%Z by lia. done.
Qed.

Lemma scale10_value (m e : Z) : scale10 m e = Qred (inject_Z m * 10 ^ e).
Proof.
  unfold scale10. destruct (Z.leb_spec 0 e) as [He|He].
  - rewrite <- Qred_inject_Z. apply Qred_complete.
    rewrite inject_Z_mult. by rewrite Zpower_Qpower.
  - apply Qred_complete.
    assert (0 < 10 ^ (- e))%Z as Hpos by (apply Z.pow_pos_nonneg; lia).
    transitivity (inject_Z m / inject_Z (Z.pos (Z.to_pos (10 ^ (- e)))))%Q.
    { apply Qmake_Qdiv. }
    rewrite Z2Pos.id by done. unfold Qdiv.
    apply Qmult_comp; [reflexivity|].
    rewrite Zpower_Qpower by lia. rewrite <- Qpower_opp.
    by rewrite Z.opp_involutive.
Qed.

(** A name, [inf] or [nan], does not begin with a digit. *)
Lemma digit_not_name (c : ascii) (l : list ascii) :
  is_Some (digit_val c) →
  String.eqb (string_of_list_ascii (map lower_char (c :: l))) "inf"
  || String.eqb (string_of_list_ascii (map lower_char (c :: l))) "infinity"
    = false ∧
  String.eqb (string_of_list_ascii (map lower_char (c :: l))) "nan" = false.
Proof.
  intros Hc. change (map lower_char (c :: l))
    with (lower_char c :: (lower_char <$> l)).
  cbn [string_of_list_ascii]. by by_digit Hc.
Qed.

(** The number part of a literal: its digits as one integer and the count
    of the digits after the point; the exponent, if any, is left. *)
Lemma number_literal (int : string) (frac : option string) (rest : list ascii) :
  decimal int →
  (∀ fr, frac = Some fr → Forall (λ c, is_Some (digit_val c)) (chars fr)) →
  rest = [] ∨ (∃ r, rest = "e"%char :: r) →
  number (chars int ++
          chars (match frac with Some fr => "." +:+ fr | None => "" end) ++ rest)
  = Some (digits_value 0 (chars int ++ chars (default "" frac)),
          length (chars (default "" frac)), rest).
Proof.
  intros [Hne Hint] Hfr Hrest. apply chars_nonempty in Hne.
  assert (match rest with
          | [] => True
          | c :: _ => digit_val c = None ∧ Ascii.eqb c "_" = false
          end) as Hstop by (destruct Hrest as [->|[r ->]]; done).
  assert (digitpart rest = None) as Hnone
    by (destruct Hrest as [->|[r ->]]; done).
  destruct frac as [fr|]; cbn [from_option id default].
  - specialize (Hfr fr eq_refl).
    change ("." +:+ fr) with (String "." fr).
    change (chars (String "." fr)) with ("."%char :: chars fr).
    assert (digitpart (chars int ++ ("."%char :: chars fr) ++ rest)
            = Some (digits_value 0 (chars int), length (chars int),
                    "."%char :: chars fr ++ rest)) as Hip
      by by apply digitpart_run.
    assert (number (chars int ++ ("."%char :: chars fr) ++ rest) =
            match digitpart (chars fr ++ rest) with
            | Some (f, k, rest') =>
                Some (digits_value 0 (chars int) * 10 ^ Z.of_nat k + f, k, rest')
            | None => Some (digits_value 0 (chars int), 0%nat, chars fr ++ rest)
            end) as ->.
    { unfold number. rewrite Hip.
      destruct (chars int) as [|c ds]; [done|].
      apply Forall_cons in Hint as [Hc _]. by by_digit Hc. }
    destruct (chars fr) as [|c ds] eqn:Hcs.
    + cbn [app length]. rewrite Hnone, app_nil_r. done.
    + rewrite digitpart_run by done. rewrite digits_value_app. done.
  - change (chars "") with (@nil ascii). cbn [app]. rewrite app_nil_r.
    assert (digitpart (chars int ++ rest)
            = Some (digits_value 0 (chars int), length (chars int), rest)) as Hip
      by by apply digitpart_run.
    unfold number. rewrite Hip.
    destruct (chars int) as [|c ds]; [done|].
    apply Forall_cons in Hint as [Hc _].
    destruct Hrest as [->|[r ->]]; by by_digit Hc.
Qed.

(** The exponent part of a literal. *)
Lemma exponent_literal (ex : option (bool * string)) :
  (∀ eneg ed, ex = Some (eneg, ed) → decimal ed) →
  exponent (chars match ex with
                  | Some (eneg, ed) => "e" +:+ (if eneg then "-" else "") +:+ ed
                  | None => ""
                  end)
  = Some match ex with
         | Some (eneg, ed) =>
             if eneg then - digits_value 0 (chars ed)
             else digits_value 0 (chars ed)
         | None => 0
         end.
Proof.
  intros Hex. destruct ex as [[eneg ed]|]; [|done].
  destruct (Hex eneg ed eq_refl) as [Hne Hds]. apply chars_nonempty in Hne.
  pose proof (digitpart_run (chars ed) [] Hne Hds I) as Hdp.
  rewrite app_nil_r in Hdp.
  change ("e" +:+ (if eneg then "-" else "") +:+ ed)
    with (String "e" ((if eneg then "-" else "") +:+ ed)).
  change (chars (String "e" ((if eneg then "-" else "") +:+ ed)))
    with ("e"%char :: chars ((if eneg then "-" else "") +:+ ed)).
  cbn [exponent]. change (Ascii.eqb (lower_char "e") "e") with true.
  cbn match. destruct eneg.
  - change (chars ("-" +:+ ed)) with ("-"%char :: chars ed).
    cbn [sign_of]. by rewrite Hdp.
  - change (chars ("" +:+ ed)) with (chars ed).
    assert (sign_of (chars ed) = (false, chars ed)) as ->.
    { destruct (chars ed) as [|c ds]; [done|].
      apply Forall_cons in Hds as [Hc _]. by by_digit Hc. }
    by rewrite Hdp.
Qed.

(** A literal has no whitespace. *)
Lemma written_no_space (l : literal) :
  well_formed l → Forall (λ c, is_space c = false) (chars (written l)).
Proof.
  destruct l as [neg int frac ex]. intros ([_ Hint] & Hfr & Hex).
  cbn in Hint, Hfr, Hex. unfold written. cbn [lit_neg lit_int lit_frac lit_exp].
  assert (∀ s, Forall (λ c, is_Some (digit_val c)) (chars s) →
               Forall (λ c, is_space c = false) (chars s)) as Hdig.
  { intros s Hs. eapply Forall_impl; [exact Hs|]. apply digit_not_space. }
  rewrite !chars_app. repeat apply Forall_app_2.
  - by destruct neg; repeat constructor.
  - by apply Hdig.
  - destruct frac as [fr|]; [|constructor].
    change ("." +:+ fr) with (String "." fr).
    change (chars (String "." fr)) with ("."%char :: chars fr).
    constructor; [done|]. by apply Hdig, Hfr.
  - destruct ex as [[eneg ed]|]; [|constructor].
    change ("e" +:+ (if eneg then "-" else "") +:+ ed)
      with (String "e" ((if eneg then "-" else "") +:+ ed)).
    change (chars (String "e" ((if eneg then "-" else "") +:+ ed)))
      with ("e"%char :: chars ((if eneg then "-" else "") +:+ ed)).
    constructor; [done|]. rewrite chars_app. apply Forall_app_2.
    + by destruct eneg; repeat constructor.
    + apply Hdig. by destruct (Hex eneg ed eq_refl).
Qed.

Lemma written_word (l : literal) : well_formed l → word (written l).
Proof.
  intros Hl. split; [|by apply written_no_space].
  destruct l as [neg int frac ex]. destruct Hl as ([Hne _] & _).
  cbn in Hne. unfold written. cbn [lit_neg lit_int lit_frac lit_exp].
  destruct neg; [done|]. change ("" +:+ ?s) with s.
  by destruct int.
Qed.

(** [float] reads a literal as the float nearest to the number it
    denotes. *)
Lemma py_float_literal (l : literal) :
  well_formed l → py_float (written l) = Ok (b64_round (Qred (lit_value l))).
Proof.
  intros Hl. pose proof (written_no_space l Hl) as Hsp.
  destruct l as [neg int frac ex]. destruct Hl as (Hint & Hfr & Hex).
  cbn in Hint, Hfr, Hex.
  unfold py_float. fold (chars (written (Literal neg int frac ex))).
  rewrite strip_no_space by done.
  unfold written. cbn [lit_neg lit_int lit_frac lit_exp].
  rewrite (chars_app _ (int +:+ _)), (chars_app int), (chars_app _ (match ex with
    | Some _ => _ | None => _ end)).
  set (fp := chars match frac with Some fr => "." +:+ fr | None => "" end).
  set (ep := chars match ex with
                   | Some (eneg, ed) => "e" +:+ (if eneg then "-" else "") +:+ ed
                   | None => ""
                   end).
  assert (sign_of (chars (if neg then "-" else "") ++ chars int ++ fp ++ ep)
          = (neg, chars int ++ fp ++ ep)) as ->.
  { destruct neg; [done|]. change (chars "") with (@nil ascii). cbn [app].
    destruct Hint as [Hne Hds]. apply chars_nonempty in Hne.
    destruct (chars int) as [|c ds]; [done|].
    apply Forall_cons in Hds as [Hc _]. by by_digit Hc. }
  cbn match.
  assert (∃ c ds, chars int ++ fp ++ ep = c :: ds ∧ is_Some (digit_val c))
    as (c & ds & Hbody & Hc).
  { destruct Hint as [Hne Hds]. apply chars_nonempty in Hne.
    destruct (chars int) as [|c ds]; [done|].
    apply Forall_cons in Hds as [Hc _]. by eexists _, _. }
  destruct (digit_not_name c ds Hc) as [Hinf Hnan].
  rewrite Hbody, Hinf, Hnan, <- Hbody. clear c ds Hbody Hc Hinf Hnan.
  assert (ep = [] ∨ ∃ r, ep = "e"%char :: r) as Hep.
  { unfold ep. destruct ex as [[eneg ed]|]; [right|by left].
    by eexists. }
  unfold fp. rewrite (number_literal int frac ep Hint Hfr Hep).
  unfold ep. rewrite (exponent_literal ex Hex).
  f_equal. f_equal. rewrite scale10_value. apply Qred_complete.
  unfold lit_value, lit_digits, lit_power.
  cbn [lit_neg lit_int lit_frac lit_exp].
  destruct neg; [|by rewrite Qmult_1_l].
  rewrite inject_Z_opp. apply Qmult_comp; [ring|reflexivity].
Qed.

(** ** Rounding to the nearest float *)

(** The binary order of magnitude of [n / d]. *)
Lemma b64_magnitude (n d : Z) :
  0 < n → 0 < d →
  let k := Z.log2 n - Z.log2 d in
  let above := if 0 <=? k then d * 2 ^ k <=? n else d <=? n * 2 ^ (- k) in
  let lg := if above then k else k - 1 in
  d * 2 ^ Z.max 0 lg <= n * 2 ^ Z.max 0 (- lg) ∧
  n * 2 ^ Z.max 0 (- lg) < 2 * d * 2 ^ Z.max 0 lg.
Proof.
  intros Hn Hd k above lg. subst lg above.
  assert (k = Z.log2 n - Z.log2 d) as Hkdef by reflexivity. clearbody k.
  pose proof (Z.log2_spec n Hn) as [Hn1 Hn2].
  pose proof (Z.log2_spec d Hd) as [Hd1 Hd2].
  pose proof (Z.log2_nonneg n) as Hln. pose proof (Z.log2_nonneg d) as Hld.
  set (a := Z.log2 n) in *. set (b := Z.log2 d) in *. clearbody a b.
  rewrite Z.pow_succ_r in Hn2, Hd2 by done.
  assert (0 < 2 ^ a) as Hpa by (apply Z.pow_pos_nonneg; lia).
  assert (0 < 2 ^ b) as Hpb by (apply Z.pow_pos_nonneg; lia).
  destruct (Z.leb_spec 0 k) as [Hk|Hk].
  - assert (2 ^ a = 2 ^ b * 2 ^ k) as Hab.
    { rewrite <- Z.pow_add_r by lia. f_equal. lia. }
    assert (0 < 2 ^ k) as Hpk by (apply Z.pow_pos_nonneg; lia).
    assert (2 ^ b * 2 ^ k <= d * 2 ^ k) as Hle
      by (apply Z.mul_le_mono_nonneg_r; lia).
    destruct (Z.leb_spec (d * 2 ^ k) n) as [Hab'|Hab'].
    + rewrite (Z.max_r 0 k), (Z.max_l 0 (- k)) by lia.
      rewrite Z.pow_0_r. lia.
    + destruct (Z.eq_dec k 0) as [Hk0|Hk0].
      * assert (a = b) as Heq by lia. rewrite Heq in *.
        rewrite Hk0 in Hab' |- *. change (2 ^ 0) with 1 in Hab'.
        change (Z.max 0 (0 - 1)) with 0.
        change (Z.max 0 (- (0 - 1))) with 1.
        change (2 ^ 0) with 1. change (2 ^ 1) with 2. lia.
      * rewrite (Z.max_r 0 (k - 1)), (Z.max_l 0 (- (k - 1))) by lia.
        rewrite Z.pow_0_r.
        assert (2 ^ k = 2 * 2 ^ (k - 1)) as Hk1.
        { rewrite <- Z.pow_succ_r by lia. f_equal. lia. }
        assert (0 < 2 ^ (k - 1)) by (apply Z.pow_pos_nonneg; lia).
        assert (2 * (d * 2 ^ (k - 1)) <= 2 * (n * 1)); [|lia].
        assert (d * 2 ^ k < 2 * 2 ^ b * 2 ^ k); [|lia].
        apply Z.mul_lt_mono_pos_r; lia.
  - assert (2 ^ b = 2 ^ a * 2 ^ (- k)) as Hab.
    { rewrite <- Z.pow_add_r by lia. f_equal. lia. }
    assert (0 < 2 ^ (- k)) as Hpk by (apply Z.pow_pos_nonneg; lia).
    assert (2 ^ a * 2 ^ (- k) <= n * 2 ^ (- k)) as Hle
      by (apply Z.mul_le_mono_nonneg_r; lia).
    destruct (Z.leb_spec d (n * 2 ^ (- k))) as [Hab'|Hab'].
    + rewrite (Z.max_l 0 k), (Z.max_r 0 (- k)) by lia.
      rewrite Z.pow_0_r.
      assert (n * 2 ^ (- k) < 2 * 2 ^ a * 2 ^ (- k)); [|lia].
      apply Z.mul_lt_mono_pos_r; lia.
    + rewrite (Z.max_l 0 (k - 1)), (Z.max_r 0 (- (k - 1))) by lia.
      rewrite Z.pow_0_r.
      assert (2 ^ (- (k - 1)) = 2 * 2 ^ (- k)) as Hk1.
      { rewrite <- Z.pow_succ_r by lia. f_equal. lia. }
      rewrite Hk1. lia.
Qed.

Lemma pow2_split (x : Z) : 0 < 2 ^ Z.max 0 x ∧ 0 < 2 ^ Z.max 0 (- x).
Proof. split; apply Z.pow_pos_nonneg; lia. Qed.

(** [2 ^ (c + x) <= 2 ^ (c' + y)], with the powers of [x] and [y] written
    as quotients of powers whose exponents are not negative. *)
Lemma pow2_cross (c c' x y : Z) :
  0 <= c → 0 <= c' → c + x <= c' + y →
  2 ^ c * (2 ^ Z.max 0 x * 2 ^ Z.max 0 (- y))
  <= 2 ^ c' * (2 ^ Z.max 0 y * 2 ^ Z.max 0 (- x)).
Proof.
  intros Hc Hc' Hxy. rewrite <- !Z.pow_add_r by lia.
  apply Z.pow_le_mono_r; lia.
Qed.

(** [b64_nearest n d] is [n / d] rounded to the nearest float: a multiple
    [m * 2 ^ e] of the unit [2 ^ e], with a significand [m] of at most 53
    bits, at most half a unit away from [n / d], and with [m] even when
    [n / d] is half-way between two multiples. The unit is the smallest
    one that leaves [m] within 53 bits, and not below [2 ^ -1074]. *)
Lemma b64_nearest_spec (n d : Z) :
  0 < n → 0 < d →
  ∃ m e : Z,
    b64_nearest n d = b64_value m e ∧
    -1074 <= e ∧ 0 <= m <= 2 ^ 53 ∧ (e = -1074 ∨ 2 ^ 52 <= m) ∧
    2 * Z.abs (n * 2 ^ Z.max 0 (- e) - m * (d * 2 ^ Z.max 0 e))
      <= d * 2 ^ Z.max 0 e ∧
    (2 * Z.abs (n * 2 ^ Z.max 0 (- e) - m * (d * 2 ^ Z.max 0 e))
      = d * 2 ^ Z.max 0 e → Z.even m = true).
Proof.
  intros Hn Hd. pose proof (b64_magnitude n d Hn Hd) as Hmag. cbv zeta in Hmag.
  unfold b64_nearest. cbv zeta.
  match type of Hmag with
  | d * 2 ^ Z.max 0 ?x <= _ ∧ _ => set (lg := x) in *
  end.
  destruct Hmag as [Hlo Hhi].
  set (e := Z.max (lg - 52) (-1074)).
  set (num := if 0 <=? e then n else n * 2 ^ (- e)).
  set (den := if 0 <=? e then d * 2 ^ e else d).
  set (m := if 2 * (num mod den) <? den then num / den
            else if den <? 2 * (num mod den) then num / den + 1
            else if Z.even (num / den) then num / den else num / den + 1).
  exists m, e. split; [reflexivity|]. clearbody lg.
  assert (num = n * 2 ^ Z.max 0 (- e) ∧ den = d * 2 ^ Z.max 0 e) as [Hnum Hden].
  { unfold num, den. destruct (Z.leb_spec 0 e).
    - rewrite (Z.max_l 0 (- e)), (Z.max_r 0 e) by lia.
      rewrite Z.pow_0_r. lia.
    - rewrite (Z.max_r 0 (- e)), (Z.max_l 0 e) by lia.
      rewrite Z.pow_0_r. lia. }
  rewrite <- Hnum, <- Hden.
  destruct (pow2_split e) as [Hpe Hne]. destruct (pow2_split lg) as [Hpl Hnl].
  assert (0 < den) as Hdpos by (rewrite Hden; apply Z.mul_pos_pos; lia).
  assert (0 <= num) as Hnpos by (rewrite Hnum; apply Z.mul_nonneg_nonneg; lia).
  assert (lg - 52 <= e) as Hle by lia.
  assert (num < den * 2 ^ 53) as Hupper.
  { pose proof (pow2_cross 1 53 lg e) as Hc. change (2 ^ 1) with 2 in Hc.
    rewrite Hnum, Hden.
    apply (Z.mul_lt_mono_pos_r (2 ^ Z.max 0 (- lg))); [done|].
    specialize (Hc ltac:(lia) ltac:(lia) ltac:(lia)).
    revert Hd Hhi Hc Hpe Hne Hpl Hnl. clear.
    generalize (2 ^ Z.max 0 (- lg)) (2 ^ Z.max 0 lg) (2 ^ Z.max 0 (- e))
      (2 ^ Z.max 0 e) (2 ^ 53). intros Nl Pl Ne Pe K Hd Hhi Hc Hpe Hne Hpl Hnl.
    apply Z.lt_le_trans with (d * (2 * (Pl * Ne))); [|].
    - replace (n * Ne * Nl) with (n * Nl * Ne) by ring.
      replace (d * (2 * (Pl * Ne))) with (2 * d * Pl * Ne) by ring.
      by apply Z.mul_lt_mono_pos_r.
    - replace (d * Pe * K * Nl) with (d * (K * (Pe * Nl))) by ring.
      apply Z.mul_le_mono_nonneg_l; lia. }
  assert (e = lg - 52 → den * 2 ^ 52 <= num) as Hlower.
  { intros He. pose proof (pow2_cross 52 0 e lg) as Hc.
    change (2 ^ 0) with 1 in Hc. rewrite Hnum, Hden.
    apply (Z.mul_le_mono_pos_r _ _ (2 ^ Z.max 0 (- lg))); [done|].
    specialize (Hc ltac:(lia) ltac:(lia) ltac:(lia)).
    revert Hd Hlo Hc Hpe Hne Hpl Hnl. clear.
    generalize (2 ^ Z.max 0 (- lg)) (2 ^ Z.max 0 lg) (2 ^ Z.max 0 (- e))
      (2 ^ Z.max 0 e) (2 ^ 52). intros Nl Pl Ne Pe K Hd Hlo Hc Hpe Hne Hpl Hnl.
    apply Z.le_trans with (d * (1 * (Pl * Ne))); [|].
    - replace (d * Pe * K * Nl) with (d * (K * (Pe * Nl))) by ring.
      apply Z.mul_le_mono_nonneg_l; lia.
    - replace (d * (1 * (Pl * Ne))) with (d * Pl * Ne) by ring.
      replace (n * Ne * Nl) with (n * Nl * Ne) by ring.
      apply Z.mul_le_mono_nonneg_r; lia. }
  pose proof (Z.div_mod num den ltac:(lia)) as Hdm.
  pose proof (Z.mod_pos_bound num den Hdpos) as Hr.
  assert (num / den < 2 ^ 53) as Hq53
    by (apply Z.div_lt_upper_bound; [done|exact Hupper]).
  assert (0 <= num / den) as Hq0 by (apply Z.div_pos; lia).
  assert (e = lg - 52 → 2 ^ 52 <= num / den) as Hq52.
  { intros He. apply Z.div_le_lower_bound; [done|]. by apply Hlower. }
  set (q := num / den) in *. set (r := num mod den) in *.
  assert (0 <= m <= 2 ^ 53 ∧ (e = lg - 52 → 2 ^ 52 <= m)) as [Hm53 Hm52].
  { assert (m = q ∨ m = q + 1) as Hm by (unfold m; repeat case_match; auto).
    clear - Hq0 Hq53 Hq52 Hm. split; [lia|]. intros He. specialize (Hq52 He). lia. }
  split; [apply Z.le_max_r|]. split; [exact Hm53|]. split.
  { destruct (Z.eq_dec e (-1074)) as [|Hnorm]; [by left|right].
    apply Hm52. clear - Hnorm. lia. }
  assert (num - q * den = r) as Hq by (clear - Hdm; lia).
  assert (num - (q + 1) * den = r - den) as Hq1 by (clear - Hdm; lia).
  unfold m. clear - Hq Hq1 Hr.
  destruct (Z.ltb_spec (2 * r) den) as [H1|H1].
  { rewrite Hq. split; [|intros Htie]; lia. }
  destruct (Z.ltb_spec den (2 * r)) as [H2|H2].
  { rewrite Hq1. split; [|intros Htie]; lia. }
  destruct (Z.even q) eqn:Hev.
  { rewrite Hq. split; [lia|done]. }
  rewrite Hq1. split; [lia|]. intros _. rewrite Z.even_add, Hev. done.
Qed.

(** Rounding is exact on what a float can hold. *)

(** The nearest float to [n / 2 ^ j] is [n / 2 ^ j] itself when [n] fits
    in 53 bits and [j] is within the exponent range. *)
Lemma b64_nearest_exact (n j : Z) :
  0 < n < 2 ^ 53 → 0 <= j <= 1074 →
  b64_nearest n (2 ^ j) = Fin (Qred (n # Z.to_pos (2 ^ j))).
Proof.
  intros Hn Hj. unfold b64_nearest. rewrite Z.log2_pow2 by lia.
  set (L := Z.log2 n).
  assert (0 <= L <= 52) as HL.
  { split; [apply Z.log2_nonneg|].
    assert (L < 53); [|lia]. apply Z.log2_lt_pow2; lia. }
  assert (2 ^ L <= n) as HLn by (apply Z.log2_spec; lia).
  cbv zeta.
  assert ((if 0 <=? L - j then 2 ^ j * 2 ^ (L - j) <=? n
           else 2 ^ j <=? n * 2 ^ (- (L - j))) = true) as ->.
  { destruct (Z.leb_spec 0 (L - j)); apply Z.leb_le.
    - rewrite <- Z.pow_add_r by lia. by replace (j + (L - j)) with L by lia.
    - replace (2 ^ j) with (2 ^ L * 2 ^ (- (L - j))).
      + apply Z.mul_le_mono_nonneg_r; [|done]. apply Z.pow_nonneg. lia.
      + rewrite <- Z.pow_add_r by lia. f_equal. lia. }
  set (e := Z.max (L - j - 52) (-1074)).
  assert (e <= - j) as He by lia.
  assert (0 < 2 ^ j) as Hpj by (apply Z.pow_pos_nonneg; lia).
  destruct (Z.leb_spec 0 e) as [He0|He0].
  - assert (j = 0) as -> by lia. assert (e = 0) as -> by lia.
    rewrite !Z.pow_0_r, !Z.mul_1_r, Z.div_1_r, Z.mod_1_r.
    change (2 * 0 <? 1) with true. cbv iota.
    assert ((2 ^ 1024 <=? n) = false) as ->.
    { apply Z.leb_gt. transitivity (2 ^ 53); [lia|]. by apply Z.pow_lt_mono_r. }
    f_equal. symmetry. apply (Qred_inject_Z n).
  - assert (n * 2 ^ (- e) = n * 2 ^ (- e - j) * 2 ^ j) as Hnum.
    { rewrite <- Z.mul_assoc, <- Z.pow_add_r by lia. do 2 f_equal. lia. }
    rewrite Hnum, Z.div_mul, Z.mod_mul by lia.
    assert ((2 * 0 <? 2 ^ j) = true) as -> by (apply Z.ltb_lt; lia).
    f_equal. apply Qred_complete. unfold Qeq. cbn [Qnum Qden].
    rewrite !Z2Pos.id; [lia|lia|]. apply Z.pow_pos_nonneg; lia.
Qed.

(** The positive divisors of a power of two are powers of two. *)
Lemma pow2_divisor (j d : Z) :
  0 <= j → 0 < d → (d | 2 ^ j) → ∃ i, 0 <= i <= j ∧ d = 2 ^ i.
Proof.
  intros Hj. revert d. pattern j. apply natlike_ind; [| |done]; clear j Hj.
  - intros d Hd Hdiv. exists 0. split; [lia|].
    apply Z.divide_pos_le in Hdiv; [|done]. cbn in *. lia.
  - intros j Hj IH d Hd Hdiv. rewrite Z.pow_succ_r in Hdiv by done.
    destruct (Z.even d) eqn:Hev.
    + apply Z.even_spec in Hev as [c ->].
      apply Z.mul_divide_cancel_l in Hdiv; [|done].
      destruct (IH c) as (i & Hi & ->); [lia|done|].
      exists (Z.succ i). split; [lia|]. by rewrite Z.pow_succ_r by lia.
    + destruct (IH d) as (i & Hi & ->); [done| |exists i; split; [lia|done]].
      apply (Z.gauss _ 2); [done|].
      pose proof (Z.gcd_nonneg d 2) as Hg0.
      pose proof (Z.gcd_divide_r d 2) as Hg2.
      pose proof (Z.gcd_divide_l d 2) as Hgd.
      apply Z.divide_pos_le in Hg2; [|done].
      assert (Z.gcd d 2 ≠ 0) as Hnz.
      { intros H0. rewrite H0 in Hgd. apply Z.divide_0_l in Hgd. lia. }
      assert (Z.gcd d 2 ≠ 2) as Hn2.
      { intros H2. rewrite H2 in Hgd. destruct Hgd as [c ->].
        rewrite Z.even_mul in Hev. cbn in Hev. by rewrite orb_true_r in Hev. }
      lia.
Qed.

Lemma b64_round_exact (q : Q) :
  binary_fraction q → b64_round (Qred q) = Fin (Qred q).
Proof.
  intros (n & j & Hn & Hj & Hq).
  assert (0 < 2 ^ j) as Hpj by (apply Z.pow_pos_nonneg; lia).
  pose proof (gcd_Qred q) as Hgcd. apply Qred_eq_iff in Hq.
  assert (Qred q == n # Z.to_pos (2 ^ j))%Q as Hval
    by (rewrite Hq; apply Qred_correct).
  pose proof (Qred_complete _ _ (Qred_correct q)) as Hidem.
  destruct (Qred q) as [a d]. clear Hq. unfold Qeq in Hval.
  cbn [Qnum Qden] in Hval, Hgcd. rewrite Z2Pos.id in Hval by done.
  assert (∀ p : BinNums.positive, Z.pos p * 2 ^ j = Z.abs n * Z.pos d →
                          Z.gcd (Z.pos p) (Z.pos d) = 1 →
    b64_nearest (Z.pos p) (Z.pos d) = Fin (Qred (Z.pos p # d))) as Hpos.
  { intros p Hp Hg.
    destruct (pow2_divisor j (Z.pos d)) as (i & Hi & Hd); [lia|done| |].
    { apply (Z.gauss _ (Z.pos p)); [|by rewrite Z.gcd_comm].
      exists (Z.abs n). lia. }
    rewrite Hd. rewrite b64_nearest_exact; [|split; [lia|]|lia].
    - by rewrite <- Hd.
    - assert (Z.pos p <= Z.abs n); [|lia].
      assert (2 ^ i <= 2 ^ j) by (apply Z.pow_le_mono_r; lia). nia. }
  unfold b64_round. cbn [Qnum Qden]. destruct a as [|p|p].
  - rewrite Z.gcd_0_l in Hgcd. cbn in Hgcd. by injection Hgcd as ->.
  - rewrite Hpos; [by rewrite Hidem| lia |done].
  - rewrite Hpos; [| lia |].
    + cbn [f_neg]. f_equal. rewrite <- Qred_opp.
      change (- (Z.pos p # d))%Q with (Z.neg p # d). exact Hidem.
    + by rewrite <- Z.gcd_opp_l.
Qed.

(** ** The stored alert *)

Example float_of_literals :
  py_float "850" = Ok (Fin 850) ∧
  py_float "850.5" = Ok (Fin (1701 # 2)) ∧
  py_float "1e3" = Ok (Fin 1000) ∧
  py_float "8.5E+2" = Ok (Fin 850) ∧
  py_float "25e-2" = Ok (Fin (1 # 4)) ∧
  py_float ".5" = Ok (Fin (1 # 2)) ∧
  py_float "5." = Ok (Fin 5) ∧
  py_float "1_000.5" = Ok (Fin (2001 # 2)) ∧
  py_float " -5 " = Ok (Fin (-5)) ∧
  py_float "+inf" = Ok PosInf ∧
  py_float "-Infinity" = Ok NegInf ∧
  py_float "NaN" = Ok NaN ∧
  py_float "0.1" = Ok (Fin (3602879701896397 # 2 ^ 55)) ∧
  py_float "9007199254740993" = Ok (Fin 9007199254740992) ∧
  py_float "9007199254740995" = Ok (Fin 9007199254740996) ∧
  py_float "1e400" = Ok PosInf ∧
  py_float "-1e400" = Ok NegInf ∧
  py_float "1e-400" = Ok (Fin 0) ∧
  py_float "5e-324" = Ok (Fin (1 # 2 ^ 1074)) ∧
  py_float "2e-324" = Ok (Fin 0) ∧
  py_float "1.7976931348623157e308"
    = Ok (Fin (inject_Z ((2 ^ 53 - 1) * 2 ^ 971))) ∧
  py_float "1.7976931348623159e308" = Ok PosInf.
Proof. repeat apply conj; vm_compute; reflexivity. Qed.

(** Rounding to the nearest float, to the even one on a tie, above and
    below the range where every integer is a float, and at both ends of the
    range of the floats. *)
Example float_rounding :
  py_float "9007199254740993.0000000001" = Ok (Fin 9007199254740994) ∧
  py_float "9007199254740992.9999" = Ok (Fin 9007199254740992) ∧
  py_float "18014398509481986" = Ok (Fin 18014398509481984) ∧
  py_float "18014398509481990" = Ok (Fin 18014398509481992) ∧
  py_float "4.35" = Ok (Fin (2448832297382707 # 2 ^ 49)) ∧
  py_float "2.675" = Ok (Fin (3011782250804019 # 2 ^ 50)) ∧
  py_float "0.3" = Ok (Fin (5404319552844595 # 2 ^ 54)) ∧
  py_float "1e-5" = Ok (Fin (5902958103587057 # 2 ^ 69)) ∧
  py_float "1e22" = Ok (Fin (inject_Z (10 ^ 22))) ∧
  py_float "1e23" = Ok (Fin (inject_Z 99999999999999991611392)) ∧
  py_float "123456789012345678901234567890"
    = Ok (Fin (inject_Z 123456789012345677877719597056)) ∧
  py_float "2.4703282292062327e-324" = Ok (Fin 0) ∧
  py_float "2.4703282292062328e-324" = Ok (Fin (1 # 2 ^ 1074)) ∧
  py_float "1e-323" = Ok (Fin (1 # 2 ^ 1073)) ∧
  py_float "2.2250738585072014e-308" = Ok (Fin (1 # 2 ^ 1022)) ∧
  py_float "2.2250738585072011e-308" = Ok (Fin (4503599627370495 # 2 ^ 1074)) ∧
  py_float "1.797693134862315807e308"
    = Ok (Fin (inject_Z ((2 ^ 53 - 1) * 2 ^ 971))) ∧
  py_float "1.797693134862315808e308" = Ok PosInf ∧
  py_float "-2.5e-1" = Ok (Fin (-1 # 4)) ∧
  py_float "1_0e1_0" = Ok (Fin 100000000000).
Proof. repeat apply conj; vm_compute; reflexivity. Qed.

Example float_of_unreadable :
  Forall (λ s, py_float s = Raise ValueError)
    [""; "abc"; "1e"; "e3"; "."; "1__0"; "_1"; "1_"; "1.5.2"; "--5"; "5 0";
     "1e3.5"; "0x10"; "in"; "infinit"; "1,5"].
Proof. repeat (apply List.Forall_cons; [by vm_compute|]). apply List.Forall_nil. Qed.

(** Literals as they are written, and the numbers they denote. *)
Example literals_written :
  written (Literal false "850" None None) = "850" ∧
  written (Literal false "850" (Some "5") None) = "850.5" ∧
  written (Literal true "1" (Some "25") (Some (true, "2"))) = "-1.25e-2" ∧
  written (Literal false "5" (Some "") (Some (false, "3"))) = "5.e3" ∧
  Qred (lit_value (Literal false "850" (Some "5") None)) = 1701 # 2 ∧
  Qred (lit_value (Literal true "1" (Some "25") (Some (true, "2")))) = -1 # 80 ∧
  Qred (lit_value (Literal false "5" (Some "") (Some (false, "3")))) = 5000 # 1 ∧
  Qred (lit_value (Literal false "0" (Some "1") None)) = 1 # 10 ∧
  b64_round (Qred (lit_value (Literal false "0" (Some "1") None)))
    = Fin (3602879701896397 # 2 ^ 55) ∧
  binary_fraction (1701 # 2).
Proof.
  repeat apply conj.
  1-9: vm_compute; reflexivity.
  exists 1701, 1. split; [by vm_compute|]. split; [lia|]. by vm_compute.
Qed.

(** C9: after a successful [/alert] the stored tuple holds the second word
    of the message in upper case, with no lower-case letter left, and the
    float read from the third word; upper-casing the stored pair again
    changes nothing, and the tuple is what the application reads back for
    that user right after the command. A message made of a command word, a
    pair and a decimal literal succeeds, and the threshold stored is the
    float nearest to the number the literal denotes in base 10: that
    number itself when it is a binary fraction a float holds exactly. *)
Theorem alert_round_trip
    (text : string) (ud ud' : user_dict) (p : string) (T : pyfloat) :
  alert text ud = Ok (ud', AlertSet p T) →
  (∃ w s, py_split text !! 1%nat = Some w ∧ py_split text !! 2%nat = Some s ∧
          p = py_upper w ∧ py_float s = Ok T) ∧
  ud' !! "alerts" = Some (p, T) ∧
  py_upper p = p ∧
  Forall (λ c, is_lower c = false) (chars p) ∧
  (∀ (b : bot) (user chat : Z),
      data_of b user = ud →
      data_of (step b (AlertCommand user chat text)) user !! "alerts"
        = Some (p, T)) ∧
  (∀ (cmd w : string) (l : literal),
      word cmd → word w → well_formed l →
      alert (join_words [cmd; w; written l]) ud =
        Ok (<["alerts" := (py_upper w, b64_round (Qred (lit_value l)))]> ud,
            AlertSet (py_upper w) (b64_round (Qred (lit_value l)))) ∧
      (binary_fraction (lit_value l) →
       b64_round (Qred (lit_value l)) = Fin (Qred (lit_value l))) ∧
      (text = join_words [cmd; w; written l] →
       p = py_upper w ∧ T = b64_round (Qred (lit_value l)))).
Proof.
  intros Halert.
  assert (∀ (cmd w : string) (l : literal),
      word cmd → word w → well_formed l →
      alert (join_words [cmd; w; written l]) ud =
        Ok (<["alerts" := (py_upper w, b64_round (Qred (lit_value l)))]> ud,
            AlertSet (py_upper w) (b64_round (Qred (lit_value l))))) as Hlit.
  { intros cmd w l Hcmd Hw Hl.
    assert (Forall word [cmd; w; written l]) as Hws.
    { repeat (apply List.Forall_cons; [done || by apply written_word|]).
      apply List.Forall_nil. }
    rewrite alert_unfold, (py_split_join _ Hws). cbn [lookup list_lookup].
    by rewrite py_float_literal. }
  revert Halert. rewrite alert_unfold.
  destruct (py_split text !! 1%nat) as [w|] eqn:H1; [|done].
  destruct (py_split text !! 2%nat) as [s|] eqn:H2; [|done].
  destruct (py_float s) as [f|] eqn:Hf; [|done].
  intros [= <- <- <-]. split; [by exists w, s|].
  split; [by rewrite lookup_insert_eq|]. split; [apply py_upper_idemp|].
  split.
  { rewrite chars_py_upper. apply Forall_fmap, Forall_true. intros c.
    apply upper_char_keeps. }
  split.
  { intros b user chat Hb. cbn [step]. unfold on_alert.
    rewrite Hb, alert_unfold, H1, H2, Hf. unfold data_of. cbn [user_data].
    rewrite lookup_insert_eq. cbn. by rewrite lookup_insert_eq. }
  intros cmd w' l Hcmd Hw Hl. split; [by apply Hlit|].
  split; [apply b64_round_exact|].
  intros ->. pose proof (Hlit cmd w' l Hcmd Hw Hl) as Heq.
  rewrite alert_unfold, H1, H2, Hf in Heq. injection Heq as _ Hp HT.
  by rewrite Hp, HT.
Qed.

Lemma alert_round_trip_witness :
  (∃ ud' : user_dict,
     alert "/alert usd/ngn 850.5" ∅
       = Ok (ud', AlertSet "USD/NGN" (Fin (1701 # 2))) ∧
     ud' !! "alerts" = Some ("USD/NGN", Fin (1701 # 2))) ∧
  alert (join_words ["/alert"; "eur/ngn";
                     written (Literal true "1" (Some "25") (Some (false, "2")))]) ∅
    = Ok (<["alerts" := ("EUR/NGN", Fin (-125))]> ∅,
          AlertSet "EUR/NGN" (Fin (-125))).
Proof.
  assert (alert "/alert usd/ngn 850.5" ∅ =
          Ok (<["alerts" := ("USD/NGN", Fin (1701 # 2))]> ∅,
              AlertSet "USD/NGN" (Fin (1701 # 2)))) as Ha.
  { rewrite alert_unfold.
    replace (py_split "/alert usd/ngn 850.5")
      with ["/alert"; "usd/ngn"; "850.5"] by (vm_compute; reflexivity).
    cbn [lookup list_lookup].
    replace (py_float "850.5") with (Ok (Fin (1701 # 2)))
      by (vm_compute; reflexivity).
    reflexivity. }
  destruct (alert_round_trip _ _ _ _ _ Ha) as (_ & Hread & _ & _ & _ & Hlit).
  split.
  - exists (<["alerts" := ("USD/NGN", Fin (1701 # 2))]> ∅). by split.
  - destruct (Hlit "/alert" "eur/ngn"
                (Literal true "1" (Some "25") (Some (false, "2"))))
      as (Hstore & Hexact & _).
    + split; [done|]. repeat constructor.
    + split; [done|]. repeat constructor.
    + split; [|split].
      * split; [done|]. repeat constructor. by exists 1.
      * intros fr [= <-]. repeat constructor; by eexists.
      * intros eneg ed [= <- <-]. split; [done|]. repeat constructor. by exists 2.
    + rewrite Hstore, Hexact.
      * replace (Qred (lit_value (Literal true "1" (Some "25") (Some (false, "2")))))
          with (-125)%Q by (vm_compute; reflexivity).
        reflexivity.
      * exists (-125), 0. split; [by vm_compute|]. split; [lia|].
        by vm_compute.
Defined.

(** ** Further properties of the rate fetcher *)

(** X1: the fetch returns [None] exactly when the request itself fails;
    once a body was decoded it returns a full snapshot or raises one of
    [AttributeError], [TypeError], [ZeroDivisionError], [OverflowError],
    none of which the handler of [RequestException] catches. *)
Theorem fetch_none_iff_request_fails (r : provider_response) :
  (fetch_exchange_rates r = Ok PNone ↔ r = RequestFails) ∧
  (∀ data, r = JsonBody data →
     (∃ usd gbp eur,
        fetch_exchange_rates r =
          Ok (PDict [("USD/NGN", usd); ("GBP/NGN", PFloat gbp);
                     ("EUR/NGN", PFloat eur)])) ∨
     (∃ ex, fetch_exchange_rates r = Raise ex ∧
            (ex = AttributeError ∨ ex = TypeError ∨ ex = ZeroDivisionError ∨
             ex = OverflowError))).
Proof.
  split.
  - split; [|by intros ->].
    intros [[? _]|(? & ? & ? & ? & ? & _ & _ & _ & _ & _ & _ & ?)]
      %fetch_returns; done.
  - intros data ->.
    destruct (fetch_exchange_rates (JsonBody data)) as [v|ex] eqn:Hf.
    + left. apply fetch_returns in Hf
        as [[? _]|(? & ? & ngn & g & e & _ & _ & _ & _ & _ & _ & ->)];
        [done|]. by eexists _, _, _.
    + right. exists ex. split; [done|]. by apply fetch_raises in Hf.
Qed.

(** The four exceptions all occur. *)
Example fetch_raises_each :
  fetch_exchange_rates (JsonBody (PList [])) = Raise AttributeError ∧
  fetch_exchange_rates (JsonBody (PDict [])) = Raise TypeError ∧
  fetch_exchange_rates
    (JsonBody (PDict [("rates", PDict [("NGN", PInt 1650); ("GBP", PInt 0)])]))
    = Raise ZeroDivisionError ∧
  fetch_exchange_rates
    (JsonBody (PDict [("rates", PDict [("NGN", PInt (10 ^ 400));
                                       ("GBP", PInt 2)])]))
    = Raise OverflowError ∧
  fetch_exchange_rates
    (JsonBody (PDict [("rates", PDict [("NGN", PInt (10 ^ 400));
                                       ("GBP", PFloat (Fin 0))])]))
    = Raise OverflowError ∧
  fetch_exchange_rates
    (JsonBody (PDict [("rates", PDict [("NGN", PInt (10 ^ 400));
                                       ("GBP", PInt 0)])]))
    = Raise ZeroDivisionError ∧
  fetch_exchange_rates
    (JsonBody (PDict [("rates", PDict [("NGN", PInt (10 ^ 400));
                                       ("GBP", PInt (10 ^ 399));
                                       ("EUR", PInt (10 ^ 398))])]))
    = Ok (PDict [("USD/NGN", PInt (10 ^ 400)); ("GBP/NGN", PFloat (Fin 10));
                 ("EUR/NGN", PFloat (Fin 100))]).
Proof. repeat apply conj; vm_compute; reflexivity. Qed.

(** X2: a body whose rates have no NGN entry, or an NGN entry that is not a
    number, makes the fetch raise [TypeError]: the placeholder "N/A" is
    divided like a rate. This covers a body without ["rates"] at all. *)
Theorem fetch_without_numeric_ngn_raises
    (data : pyval) (rates : list (string * pyval)) :
  py_get data "rates" (PDict []) = Ok (PDict rates) →
  as_num (default (PStr "N/A") (dict_lookup rates "NGN")) = None →
  fetch_exchange_rates (JsonBody data) = Raise TypeError.
Proof.
  intros Hr Hn. unfold fetch_exchange_rates, fetch_try. cbn [get_json mbind result_bind].
  rewrite Hr. cbn [mbind result_bind py_get].
  assert (as_int (default (PStr "N/A") (dict_lookup rates "NGN")) = None) as Hi.
  { destruct (as_int _) as [z|] eqn:Hz; [|done].
    apply as_int_number in Hz as [x Hx]. congruence. }
  unfold py_truediv. by rewrite Hi, Hn.
Qed.

Lemma fetch_without_numeric_ngn_raises_witness :
  fetch_exchange_rates (JsonBody (PDict [("error", PBool true)])) =
    Raise TypeError.
Proof.
  apply (fetch_without_numeric_ngn_raises
           (PDict [("error", PBool true)]) []); reflexivity.
Defined.

(** Dividing a number that converts to a float by zero raises
    [ZeroDivisionError]. *)
Lemma py_truediv_zero (a b : pyval) (g : pyfloat) :
  is_number a → float_valued a → as_num b = Some g → f_is_zero g = true →
  py_truediv a b = Raise ZeroDivisionError.
Proof.
  intros [x Hx] [fa Hfa] Hg Hz. unfold py_truediv. rewrite Hx, Hg, Hfa.
  assert (∀ y, as_int b = Some y → y = 0) as Hy.
  { intros y Hy. destruct b as [|[]|y'| | | |]; try done;
      injection Hy as <-; injection Hg as <-; try done.
    apply f_is_zero_Fin in Hz. unfold Qeq in Hz. cbn in Hz. lia. }
  assert (∃ fb, to_float b = Ok fb ∧ f_is_zero fb = true) as (fb & Hfb & Hzb).
  { destruct b as [|c|y| | | |]; try done.
    - destruct c; [injection Hg as <-; by vm_compute in Hz|].
      by exists (Fin 0).
    - rewrite (Hy y eq_refl). by exists (Fin 0).
    - injection Hg as ->. by exists g. }
  destruct (as_int a) as [xa|], (as_int b) as [y|] eqn:Hb;
    rewrite ?(Hy _ eq_refl); cbn [Z.eqb]; try done;
    rewrite Hfb; cbn; by rewrite Hzb.
Qed.

(** X3: with an NGN value that is a number a float can hold, a GBP rate
    of zero makes the fetch raise [ZeroDivisionError], and so does an EUR
    rate of zero once the division by the GBP rate has succeeded. *)
Theorem fetch_zero_divisor_raises
    (data : pyval) (rates : list (string * pyval)) (ngn : pyval) (z : pyfloat) :
  py_get data "rates" (PDict []) = Ok (PDict rates) →
  ngn = default (PStr "N/A") (dict_lookup rates "NGN") →
  is_number ngn → float_valued ngn →
  f_is_zero z = true →
  as_num (default (PInt 1) (dict_lookup rates "GBP")) = Some z ∨
  ((∃ q, py_truediv ngn (default (PInt 1) (dict_lookup rates "GBP")) = Ok q) ∧
   as_num (default (PInt 1) (dict_lookup rates "EUR")) = Some z) →
  fetch_exchange_rates (JsonBody data) = Raise ZeroDivisionError.
Proof.
  intros Hr -> Hn Hfl Hz Hdiv.
  unfold fetch_exchange_rates, fetch_try. cbn [get_json mbind result_bind].
  rewrite Hr. cbn [mbind result_bind py_get].
  destruct Hdiv as [Hg|[[q Hq] He]].
  - by rewrite (py_truediv_zero _ _ z Hn Hfl Hg Hz).
  - rewrite Hq. cbn [mbind result_bind].
    by rewrite (py_truediv_zero _ _ z Hn Hfl He Hz).
Qed.

Lemma fetch_zero_divisor_raises_witness :
  fetch_exchange_rates
    (JsonBody (PDict [("rates", PDict [("NGN", PInt 1650); ("GBP", PInt 0)])]))
  = Raise ZeroDivisionError.
Proof.
  apply (fetch_zero_divisor_raises _
           [("NGN", PInt 1650); ("GBP", PInt 0)] (PInt 1650) (Fin 0));
    try reflexivity.
  - by exists (Fin 1650).
  - by exists (Fin 1650).
  - left. reflexivity.
Defined.

(** X4: the text of the rates display, for the button and for [/rate]
    alike: the failure text exactly when the request failed; no answer at
    all when the fetch raised; and when the fetch returned a snapshot, its
    three rates if USD/NGN is a number a float can hold, no answer
    otherwise, the formatting having raised [OverflowError]. Neither
    handler touches alerts, jobs or notifications. *)
Theorem rates_display (user chat : Z) (r : provider_response) (b : bot) :
  button_handler "get_rates" user chat r b = rate chat r b ∧
  user_data (rate chat r b) = user_data b ∧
  jobs (rate chat r b) = jobs b ∧
  notifications (rate chat r b) = notifications b ∧
  ((r = RequestFails ∧ replies (rate chat r b) = replies b ++ [(chat, FetchFailed)]) ∨
   (∃ ex, fetch_exchange_rates r = Raise ex ∧ rate chat r b = b) ∨
   (∃ usd gbp eur,
      snapshot_rate r "USD/NGN" = Some usd ∧
      snapshot_rate r "GBP/NGN" = Some gbp ∧
      snapshot_rate r "EUR/NGN" = Some eur ∧
      ((float_valued usd ∧
        replies (rate chat r b) = replies b ++ [(chat, TodaysRates usd gbp eur)]) ∨
       (¬ float_valued usd ∧ rates_text r = Raise OverflowError ∧
        rate chat r b = b)))).
Proof.
  split; [done|]. unfold rate, rates_text, snapshot_rate.
  destruct (fetch_exchange_rates r) as [v|ex] eqn:Hf.
  2:{ cbn. repeat (split; [done|]). right. left. by exists ex. }
  apply fetch_returns in Hf
    as [[-> ->]|(? & ? & ngn & g & e & _ & _ & _ & [x Hx] & _ & _ & ->)].
  { cbn. repeat (split; [done|]). by left. }
  cbn [mbind result_bind truthy py_getitem dict_lookup String.eqb Ascii.eqb
       Bool.eqb from_option id andb].
  destruct (format_2f_number ngn x Hx) as [[Hfl ->]|[Hfl ->]];
    cbn; repeat (split; [done|]); right; right; exists ngn, (PFloat g), (PFloat e);
    repeat (split; [done|]); [by left|by right].
Qed.

Example rates_display_overflow :
  rates_text (JsonBody (PDict [("rates", PDict [("NGN", PInt (10 ^ 400));
                                                ("GBP", PInt (10 ^ 399));
                                                ("EUR", PInt (10 ^ 398))])]))
    = Raise OverflowError ∧
  rates_text (rates_body (PInt 1650))
    = Ok (TodaysRates (PInt 1650) (PFloat (Fin 2200))
            (PFloat (Fin (4146729567612343 # 2199023255552)))).
Proof. split; vm_compute; reflexivity. Qed.
(** ** Further properties of the job callback *)

(** A run that delivers anything met the trigger condition and delivered
    the alert message of that tick. *)
Lemma run_tick_delivers (j : job) (t : tick) (m : message) :
  m ∈ delivered (run_tick j t).2 →
  trigger j t ∧ accepted t = true ∧ m = alert_message j t.
Proof.
  rewrite run_tick_unfold.
  destruct (fetch_exchange_rates (response t)) as [rates|e] eqn:Hf;
    [|by intros ?%elem_of_nil].
  destruct (fetch_returns_shape _ _ Hf) as [->|[snap ->]];
    [by intros ?%elem_of_nil|].
  destruct (truthy (PDict snap)); [|by intros ?%elem_of_nil].
  cbn [py_get].
  assert (observed_rate t (alert_of j).1 = dict_lookup snap (alert_of j).1)
    as Hobs by (unfold observed_rate, snapshot_rate; by rewrite Hf).
  destruct (dict_lookup snap (alert_of j).1) as [v|] eqn:Hv;
    cbn [from_option id]; [|by intros ?%elem_of_nil].
  destruct (observed_rate_number _ _ _ Hobs) as [x Hx].
  unfold and_ge, py_ge_float. rewrite (truthy_number _ _ Hx), Hx.
  destruct (f_is_zero x) eqn:Hz; cbn [negb]; [by intros ?%elem_of_nil|].
  destruct (f_ge x (alert_of j).2) eqn:Hge; [|by intros ?%elem_of_nil].
  destruct (format_2f v); [|by intros ?%elem_of_nil].
  destruct (accepted t); [|by intros ?%elem_of_nil].
  cbn [delivered snd]. intros ->%list_elem_of_singleton.
  split; [by exists v, x|]. split; [done|].
  unfold alert_message. by rewrite Hobs.
Qed.

(** X5: no false alarm. Every notification a job delivers, on whatever
    tick, goes to the job's chat, names the job's pair and threshold, and
    reports a rate that is a number, is not zero and is >= the
    threshold. *)
Theorem notification_meets_threshold
    (j : job) (ticks : list tick) (m : message) :
  m ∈ all_delivered (run_job j ticks) →
  chat_id m = user_id j ∧
  msg_pair m = (alert_of j).1 ∧
  msg_threshold m = (alert_of j).2 ∧
  ∃ x, as_num (msg_rate m) = Some x ∧ f_is_zero x = false ∧
       f_ge x (alert_of j).2 = true.
Proof.
  induction ticks as [|t ts IH]; [by intros ?%elem_of_nil|].
  cbn [run_job]. unfold all_delivered in *.
  cbn [fmap list_fmap concat]. rewrite elem_of_app. intros [Hm|Hm].
  - destruct (run_tick_delivers _ _ _ Hm) as ((v & x & Hv & Hx & Hz & Hge) & _ & ->).
    unfold alert_message. cbn. rewrite Hv. cbn. eauto 10.
  - destruct (removed (run_tick j t).2); [by apply elem_of_nil in Hm|].
    by apply IH.
Qed.

Lemma notification_meets_threshold_witness :
  ∃ x, as_num (PFloat (Fin 860)) = Some x ∧ f_is_zero x = false ∧
       f_ge x (Fin 850) = true.
Proof.
  destruct (notification_meets_threshold (usd_job 850)
              [tick_at 820; tick_at 860]
              (Message 7 "USD/NGN" (PFloat (Fin 860)) (Fin 850)))
    as (_ & _ & _ & H).
  - vm_compute. apply list_elem_of_here.
  - exact H.
Defined.

Lemma f_ge_lower (x : pyfloat) (T T' : Q) :
  f_ge x (Fin T) = true → (T' <= T)%Q → f_ge x (Fin T') = true.
Proof.
  destruct x as [q| | |]; try done.
  rewrite !f_ge_Fin. intros H1 H2. by apply Qle_trans with T.
Qed.

(** X6: lowering the threshold never loses an alarm. A tick that triggers
    an alert on a pair at threshold [T] triggers every alert on that pair
    with a finite threshold [T' <= T], for whatever chat. *)
Theorem trigger_lower_threshold
    (chat chat' : Z) (pair : string) (T T' : Q) (t : tick) :
  trigger (Job chat (pair, Fin T)) t → (T' <= T)%Q →
  trigger (Job chat' (pair, Fin T')) t.
Proof.
  intros (v & x & Hv & Hx & Hz & Hge) HT. exists v, x.
  repeat split; try done. cbn in *. by eapply f_ge_lower.
Qed.

Lemma trigger_lower_threshold_witness :
  trigger (Job 8 ("USD/NGN", Fin 800)) (tick_at 860).
Proof.
  apply (trigger_lower_threshold 7 8 "USD/NGN" 850 800 (tick_at 860)).
  - exists (PFloat (Fin 860)), (Fin 860). by vm_compute.
  - by vm_compute.
Defined.

(** X7: [/alert] accepts the word "nan" in any letter case as a threshold,
    and a job whose threshold is NaN never fires: it runs on every tick,
    delivers nothing and is never removed. *)
Theorem nan_threshold_never_fires
    (text : string) (ud : user_dict) (w s : string) (chat : Z)
    (ticks : list tick) :
  py_split text !! 1%nat = Some w → py_split text !! 2%nat = Some s →
  py_float s = Ok NaN →
  alert text ud =
    Ok (<["alerts" := (py_upper w, NaN)]> ud, AlertSet (py_upper w) NaN) ∧
  (∀ t, ¬ trigger (Job chat (py_upper w, NaN)) t) ∧
  length (run_job (Job chat (py_upper w, NaN)) ticks) = length ticks ∧
  all_delivered (run_job (Job chat (py_upper w, NaN)) ticks) = [].
Proof.
  intros H1 H2 Hf. split; [by rewrite alert_unfold, H1, H2, Hf|].
  assert (∀ t, ¬ trigger (Job chat (py_upper w, NaN)) t) as Hn.
  { intros t (v & x & _ & _ & _ & Hge). cbn in Hge. by destruct x. }
  split; [done|].
  induction ticks as [|t ts [IH1 IH2]]; [done|].
  destruct (run_tick_no_trigger _ t (Hn t)) as [He _].
  rewrite run_job_cons_armed by done.
  split; [cbn [length]; by rewrite IH1|].
  unfold all_delivered in *. cbn [fmap list_fmap concat]. by rewrite He, IH2.
Qed.

Lemma nan_threshold_never_fires_witness :
  all_delivered (run_job (Job 7 ("USD/NGN", NaN)) [tick_at 1650; tick_at 1700])
    = [].
Proof.
  apply (nan_threshold_never_fires "/alert usd/ngn NaN" ∅ "usd/ngn" "NaN" 7
           [tick_at 1650; tick_at 1700]).
  - vm_compute. reflexivity.
  - vm_compute. reflexivity.
  - vm_compute. reflexivity.
Defined.

(** ** Further properties of the application *)

Lemma button_handler_user_data
    (query_data : string) (user chat : Z) (r : provider_response) (b : bot) :
  user_data (button_handler query_data user chat r b) = user_data b.
Proof.
  unfold button_handler, schedule_alert.
  repeat case_match; done.
Qed.

Lemma on_tick_user_data (jid : nat) (t : tick) (b : bot) :
  user_data (on_tick jid t b) = user_data b.
Proof. unfold on_tick. repeat case_match; done. Qed.

Lemma step_job_stable (b : bot) (e : event) (k : nat) (j : job) (f : bool) :
  jobs b !! k = Some (j, f) →
  ∃ f', jobs (step b e) !! k = Some (j, f') ∧ (f = false → f' = false).
Proof.
  intros Hk. destruct e as [user chat text|query_data user chat r|i t]; cbn [step].
  - exists f. by rewrite (proj1 (on_alert_jobs user chat text b)).
  - destruct (button_handler_jobs query_data user chat r b) as (new & -> & _).
    exists f. split; [by apply lookup_app_l_Some|done].
  - unfold on_tick. destruct (jobs b !! i) as [[j' []]|] eqn:Hi; [|by exists f..].
    destruct (run_tick j' t) as [res w]. cbn [jobs].
    destruct (decide (i = k)) as [->|Hne].
    + rewrite Hk in Hi. injection Hi as <- ->.
      exists (negb (removed w)). split; [|done].
      apply list_lookup_insert_eq. by eapply lookup_lt_Some.
    + exists f. by rewrite list_lookup_insert_ne.
Qed.

(** X8: a job keeps the chat and the alert tuple it captured when it was
    created, and its position in the queue, through everything that
    happens later: other alerts, buttons, ticks of any job. Once removed it
    stays removed. *)
Theorem job_data_never_changes
    (b : bot) (es : list event) (k : nat) (j : job) (f : bool) :
  jobs b !! k = Some (j, f) →
  ∃ f', jobs (run b es) !! k = Some (j, f') ∧ (f = false → f' = false).
Proof.
  revert b f. induction es as [|e es IH]; intros b f Hk; [by exists f|].
  destruct (step_job_stable b e k j f Hk) as (f1 & H1 & Hf1).
  destruct (IH (step b e) f1 H1) as (f' & H' & Hf').
  exists f'. split; [done|]. intros Hf. apply Hf'. by apply Hf1.
Qed.

Lemma job_data_never_changes_witness :
  ∃ f', jobs (run replaced [JobTick 0 (tick_at 860); JobTick 1 (tick_at 860)])
          !! 0%nat = Some (usd_job 850, f') ∧ (true = false → f' = false).
Proof.
  apply (job_data_never_changes replaced
           [JobTick 0 (tick_at 860); JobTick 1 (tick_at 860)] 0
           (usd_job 850) true).
  vm_compute. reflexivity.
Defined.

(** X9: only a tick of a job sends a notification or removes a job.
    Through any sequence of [/alert] commands and button presses the
    notifications stay as they were and the queue only grows at its end. *)
Theorem only_ticks_notify (b : bot) (es : list event) :
  Forall (λ e, is_tick e = false) es →
  notifications (run b es) = notifications b ∧
  ∃ new, jobs (run b es) = jobs b ++ new.
Proof.
  revert b. induction es as [|e es IH]; intros b Hes.
  { split; [done|]. exists []. by rewrite app_nil_r. }
  apply Forall_cons in Hes as [He Hes].
  destruct (IH (step b e) Hes) as (Hn & new & Hj). cbn [run foldl] in *.
  unfold run in *. rewrite Hn, Hj.
  destruct e as [user chat text|query_data user chat r|i t]; [| |done]; cbn [step].
  - destruct (on_alert_jobs user chat text b) as (-> & -> & _). eauto.
  - destruct (button_handler_jobs query_data user chat r b) as (new' & -> & ->).
    split; [done|]. exists (new' ++ new). by rewrite app_assoc.
Qed.

Lemma only_ticks_notify_witness :
  notifications replaced = notifications initial.
Proof.
  apply (only_ticks_notify initial
    [AlertCommand 7 7 "/alert USD/NGN 850"; ScheduleButton 7 7;
     AlertCommand 7 7 "/alert USD/NGN 900"; ScheduleButton 7 7]).
  repeat constructor.
Defined.

(** X10: the monitoring button creates no job when the user has no alert
    stored, or when the application has no job queue. It answers "no alert
    set" in the first case, also without a queue, and "job queue not
    available" in the second; nothing else changes. *)
Theorem schedule_needs_alert_and_queue (b : bot) (user chat : Z) :
  data_of b user !! "alerts" = None ∨ job_queue b = false →
  jobs (step b (ScheduleButton user chat)) = jobs b ∧
  notifications (step b (ScheduleButton user chat)) = notifications b ∧
  user_data (step b (ScheduleButton user chat)) = user_data b ∧
  replies (step b (ScheduleButton user chat)) =
    replies b ++ [(chat, match data_of b user !! "alerts" with
                         | None => NoAlertSet
                         | Some _ => JobQueueUnavailable
                         end)].
Proof.
  rewrite step_schedule_button. unfold schedule_alert.
  intros [->|Hq]; [done|]. rewrite Hq.
  by destruct (data_of b user !! "alerts").
Qed.

Lemma schedule_needs_alert_and_queue_witness :
  jobs (step initial (ScheduleButton 7 7)) = [] ∧
  replies (step initial (ScheduleButton 7 7)) = [(7, NoAlertSet)].
Proof.
  destruct (schedule_needs_alert_and_queue initial 7 7) as (Hj & _ & _ & Hr).
  - left. reflexivity.
  - split; [exact Hj|exact Hr].
Defined.

Lemma step_other_user (b : bot) (e : event) (user : Z) :
  alert_by user e = false → data_of (step b e) user = data_of b user.
Proof.
  intros He. unfold data_of.
  destruct e as [u chat text|query_data u chat r|i t]; cbn [step].
  - cbn in He. apply bool_decide_eq_false in He. unfold on_alert.
    destruct (alert text _) as [[ud r]|]; [|done].
    cbn [user_data]. by rewrite lookup_insert_ne.
  - by rewrite button_handler_user_data.
  - by rewrite on_tick_user_data.
Qed.

(** X11: a user's stored alert changes only through that user's own
    [/alert] commands. Commands of other users, button presses of anyone
    and job ticks, also the one that fires the alert, leave it as it is. *)
Theorem stored_alert_changes_only_by_owner
    (b : bot) (es : list event) (user : Z) :
  Forall (λ e, alert_by user e = false) es →
  data_of (run b es) user = data_of b user.
Proof.
  revert b. induction es as [|e es IH]; intros b Hes; [done|].
  apply Forall_cons in Hes as [He Hes]. cbn [run foldl].
  unfold run in IH. rewrite IH by done. by apply step_other_user.
Qed.

Lemma stored_alert_changes_only_by_owner_witness :
  data_of (run replaced [AlertCommand 8 8 "/alert EUR/NGN 1"; ScheduleButton 8 8;
                         JobTick 0 (tick_at 950)]) 7
  = data_of replaced 7.
Proof.
  apply (stored_alert_changes_only_by_owner replaced
    [AlertCommand 8 8 "/alert EUR/NGN 1"; ScheduleButton 8 8;
     JobTick 0 (tick_at 950)] 7).
  repeat constructor.
Defined.

(** X12: one alert per user, the last one set. A successful [/alert]
    replaces the stored tuple whatever it was, also when the pair differs:
    after two successful commands the user's dict is the one the second
    command alone would have produced, and no other key is touched. *)
Theorem last_alert_wins
    (t1 t2 : string) (ud ud1 ud2 : user_dict)
    (p1 p2 : string) (T1 T2 : pyfloat) :
  alert t1 ud = Ok (ud1, AlertSet p1 T1) →
  alert t2 ud1 = Ok (ud2, AlertSet p2 T2) →
  ud2 !! "alerts" = Some (p2, T2) ∧
  alert t2 ud = Ok (ud2, AlertSet p2 T2) ∧
  ∀ k, k ≠ "alerts" → ud2 !! k = ud !! k.
Proof.
  rewrite !alert_unfold.
  destruct (py_split t1 !! 1%nat), (py_split t1 !! 2%nat); try done.
  destruct (py_float _); [|done]. intros [= <- <- <-].
  destruct (py_split t2 !! 1%nat), (py_split t2 !! 2%nat); try done.
  destruct (py_float _); [|done]. intros [= <- <- <-].
  rewrite insert_insert_eq. repeat split.
  - by rewrite lookup_insert_eq.
  - intros k Hk. by rewrite lookup_insert_ne.
Qed.

Lemma last_alert_wins_witness :
  (<["alerts" := ("USD/NGN", Fin 900)]> ∅ : user_dict) !! "alerts"
    = Some ("USD/NGN", Fin 900).
Proof.
  assert (alert "/alert USD/NGN 850" ∅ =
          Ok (<["alerts" := ("USD/NGN", Fin 850)]> ∅, AlertSet "USD/NGN" (Fin 850)))
    as H1 by (vm_compute; reflexivity).
  assert (alert "/alert USD/NGN 900" (<["alerts" := ("USD/NGN", Fin 850)]> ∅) =
          Ok (<["alerts" := ("USD/NGN", Fin 900)]> ∅, AlertSet "USD/NGN" (Fin 900)))
    as H2 by (vm_compute; reflexivity).
  exact (proj1 (last_alert_wins _ _ _ _ _ _ _ _ _ H1 H2)).
Defined.

(** X13: an alert that fired stays stored, so the monitoring button arms it
    again without a new [/alert]: after a tick that meets the trigger
    condition with a rate the message can show, and whose notification is
    delivered, the old job is removed, and pressing the button adds a
    fresh scheduled job for the same chat and tuple. *)
Theorem fired_alert_can_be_rearmed
    (b : bot) (user chat : Z) (a : string * pyfloat) (jid : nat) (t : tick) :
  jobs b !! jid = Some (Job chat a, true) →
  data_of b user !! "alerts" = Some a →
  job_queue b = true →
  hit (Job chat a) t → accepted t = true →
  jobs (run b [JobTick jid t; ScheduleButton user chat]) !! jid
    = Some (Job chat a, false) ∧
  jobs (run b [JobTick jid t; ScheduleButton user chat]) !! length (jobs b)
    = Some (Job chat a, true) ∧
  notifications (run b [JobTick jid t; ScheduleButton user chat])
    = notifications b ++ [alert_message (Job chat a) t].
Proof.
  intros Hj Ha Hq Ht Hacc. cbn [run foldl]. rewrite step_schedule_button.
  cbn [step]. unfold on_tick. rewrite Hj, (run_tick_hit _ _ Ht), Hacc.
  cbn [removed delivered negb snd]. unfold schedule_alert, data_of in *.
  cbn [user_data job_queue jobs notifications]. rewrite Ha, Hq.
  cbn [jobs notifications].
  assert (jid < length (jobs b))%nat as Hlt by by eapply lookup_lt_Some.
  split; [|split; [|done]].
  - rewrite lookup_app_l by by rewrite length_insert.
    by apply list_lookup_insert_eq.
  - rewrite lookup_app_r by by rewrite length_insert.
    by rewrite length_insert, Nat.sub_diag.
Qed.

Lemma fired_alert_can_be_rearmed_witness :
  jobs (run (run initial [AlertCommand 7 7 "/alert USD/NGN 850"; ScheduleButton 7 7])
            [JobTick 0 (tick_at 860); ScheduleButton 7 7]) !! 1%nat
  = Some (usd_job 850, true).
Proof.
  apply (fired_alert_can_be_rearmed
           (run initial [AlertCommand 7 7 "/alert USD/NGN 850"; ScheduleButton 7 7])
           7 7 ("USD/NGN", Fin 850) 0 (tick_at 860)).
  - vm_compute. reflexivity.
  - vm_compute. reflexivity.
  - reflexivity.
  - split.
    + exists (PFloat (Fin 860)), (Fin 860). by vm_compute.
    + exists (PFloat (Fin 860)). split; [by vm_compute|apply float_valued_float].
  - reflexivity.
Defined.

(** A rate the message cannot show leaves the job scheduled: nothing is
    sent and the alert is not retired. *)
Example unshowable_rate_keeps_job :
  let b := run initial [AlertCommand 7 7 "/alert USD/NGN 850"; ScheduleButton 7 7] in
  let t := Tick (JsonBody (PDict [("rates",
             PDict [("NGN", PInt (10 ^ 400)); ("GBP", PInt (10 ^ 399));
                    ("EUR", PInt (10 ^ 398))])])) true in
  trigger (usd_job 850) t ∧ ¬ hit (usd_job 850) t ∧
  jobs (step b (JobTick 0 t)) = jobs b ∧
  notifications (step b (JobTick 0 t)) = [].
Proof.
  cbv zeta. split; [|split; [|split]].
  - exists (PInt (10 ^ 400)), (Fin (inject_Z (10 ^ 400))). by vm_compute.
  - intros [_ (v & Hv & f & Hf)]. vm_compute in Hv. injection Hv as <-.
    by vm_compute in Hf.
  - vm_compute. reflexivity.
  - vm_compute. reflexivity.
Qed.

(** ** Further properties of the [/alert] handler *)

(** X14: the pair a successful [/alert] stores is a normalised word: it is
    not empty and has no whitespace and no lower-case letter; when the
    word typed is ASCII, the pair has as many characters, of which it
    keeps every one that is not a lower-case letter. *)
Theorem stored_pair_is_normalised
    (text : string) (ud ud' : user_dict) (p : string) (T : pyfloat) :
  alert text ud = Ok (ud', AlertSet p T) →
  p ≠ "" ∧
  Forall (λ c, is_space c = false ∧ is_lower c = false) (chars p) ∧
  ∃ w, py_split text !! 1%nat = Some w ∧
       (ascii_only w →
        ascii_only p ∧
        length (chars p) = length (chars w) ∧
        ∀ i c, chars w !! i = Some c → is_lower c = false →
               chars p !! i = Some c).
Proof.
  rewrite alert_unfold.
  destruct (py_split text !! 1%nat) as [w|] eqn:H1; [|done].
  destruct (py_split text !! 2%nat) as [s|]; [|done].
  destruct (py_float s); [|done]. intros [= <- <- <-].
  assert (word w) as [Hne Hsp].
  { eapply Forall_lookup_1; [|exact H1]. by apply split_from_words. }
  unfold ascii_only. rewrite chars_py_upper. split; [|split].
  - intros He. apply (f_equal chars) in He. rewrite chars_py_upper in He.
    apply fmap_nil_inv in He. apply Hne.
    rewrite <- (string_of_chars w). by rewrite He.
  - apply Forall_fmap. eapply Forall_impl; [exact Hsp|].
    intros c Hc. cbn. destruct (upper_char_keeps c) as (-> & -> & _). done.
  - exists w. split; [done|]. intros Hascii. split; [|split].
    + apply Forall_fmap. eapply Forall_impl; [exact Hascii|].
      intros c. cbn. clear. destruct c as [[] [] [] [] [] [] [] []]; by vm_compute.
    + by rewrite length_fmap.
    + intros i c Hi Hc. rewrite list_lookup_fmap, Hi. cbn.
      by rewrite (proj2 (proj2 (upper_char_keeps c)) Hc).
Qed.

Lemma stored_pair_is_normalised_witness :
  Forall (λ c, is_space c = false ∧ is_lower c = false) (chars "USD/NGN").
Proof.
  assert (alert "/alert usd/ngn 850" ∅ =
          Ok (<["alerts" := ("USD/NGN", Fin 850)]> ∅, AlertSet "USD/NGN" (Fin 850)))
    as H by (vm_compute; reflexivity).
  exact (proj1 (proj2 (stored_pair_is_normalised _ _ _ _ _ H))).
Defined.

(** X15: how [alert] cuts a message into words. Every piece is a word,
    not empty and free of whitespace, so a message of blanks only has no
    pieces; and a message made of words separated by single spaces is cut
    into exactly those words, in order. *)
Theorem split_join_words (text : string) (ws : list string) :
  Forall word (py_split text) ∧
  (Forall (λ c, is_space c = true) (chars text) → py_split text = []) ∧
  (Forall word ws → py_split (join_words ws) = ws).
Proof.
  split; [by apply split_from_words|]. split; [|apply py_split_join].
  unfold py_split, chars. induction text as [|c text IH]; [done|].
  cbn [list_ascii_of_string split_from]. intros [-> H]%Forall_cons. by apply IH.
Qed.

Lemma split_join_words_witness :
  py_split (join_words ["/alert"; "usd/ngn"; "850"]) = ["/alert"; "usd/ngn"; "850"].
Proof.
  apply (split_join_words "" ["/alert"; "usd/ngn"; "850"]).
  repeat constructor; by vm_compute.
Defined.

(** An integer from [2 ^ 1024] on is beyond every finite float. *)
Lemma b64_nearest_overflow (n : Z) :
  2 ^ 1024 <= n → b64_nearest n 1 = PosInf.
Proof.
  intros Hn. assert (0 < n) as Hpos.
  { eapply Z.lt_le_trans; [|exact Hn]. by apply Z.pow_pos_nonneg. }
  unfold b64_nearest. change (Z.log2 1) with 0. rewrite Z.sub_0_r.
  set (k := Z.log2 n).
  assert (1024 <= k) as Hk by (apply Z.log2_le_pow2; [done|exact Hn]).
  assert (2 ^ k <= n) as Hkn by (apply Z.log2_spec; done).
  cbv zeta.
  assert ((0 <=? k) = true) as -> by (apply Z.leb_le; lia).
  assert ((1 * 2 ^ k <=? n) = true) as -> by (apply Z.leb_le; lia).
  assert (Z.max (k - 52) (-1074) = k - 52) as -> by lia.
  assert ((0 <=? k - 52) = true) as -> by (apply Z.leb_le; lia).
  rewrite Z.mul_1_l.
  set (den := 2 ^ (k - 52)).
  assert (0 < den) as Hden by (apply Z.pow_pos_nonneg; lia).
  assert (2 ^ k = 2 ^ 52 * den) as Hsplit.
  { unfold den. rewrite <- Z.pow_add_r by lia. f_equal. lia. }
  assert (2 ^ 52 <= n / den) as Hq.
  { apply Z.div_le_lower_bound; [done|]. lia. }
  set (m := if 2 * (n mod den) <? den then n / den
            else if den <? 2 * (n mod den) then n / den + 1
            else if Z.even (n / den) then n / den else n / den + 1).
  assert (n / den <= m) as Hm by (unfold m; repeat case_match; lia).
  assert ((2 ^ 1024 <=? m * den) = true) as ->; [|done].
  apply Z.leb_le. transitivity (2 ^ k).
  - apply Z.pow_le_mono_r; lia.
  - rewrite Hsplit. apply Z.mul_le_mono_nonneg_r; lia.
Qed.

Lemma append_nil_r (s : string) : s +:+ "" = s.
Proof.
  induction s as [|c s IH]; [done|].
  change (String c s +:+ "") with (String c (s +:+ "")). by rewrite IH.
Qed.

(** [float] on a run of decimal digits, with or without a minus sign. *)
Lemma py_float_decimal (neg : bool) (s : string) :
  decimal s →
  py_float ((if neg then "-" else "") +:+ s) =
    Ok (b64_round (inject_Z (if neg then - digits_value 0 (chars s)
                             else digits_value 0 (chars s)))).
Proof.
  intros Hs.
  assert (well_formed (Literal neg s None None)) as Hl by done.
  pose proof (py_float_literal _ Hl) as Hf. unfold written in Hf.
  cbn [lit_neg lit_int lit_frac lit_exp] in Hf.
  rewrite !append_nil_r in Hf. rewrite Hf. do 2 f_equal.
  rewrite <- Qred_inject_Z. apply Qred_complete.
  unfold lit_value, lit_digits, lit_power.
  cbn [lit_neg lit_int lit_frac lit_exp from_option id default].
  change (chars "") with (@nil ascii). rewrite app_nil_r.
  change (10 ^ (0 - Z.of_nat (length [])))%Q with 1%Q.
  rewrite Qmult_1_r. destruct neg; [|by rewrite Qmult_1_l].
  rewrite inject_Z_opp. ring.
Qed.

Lemma digits_value_nonneg (acc : Z) (ds : list ascii) :
  0 <= acc → 0 <= digits_value acc ds.
Proof.
  revert acc. induction ds as [|c ds IH]; intros acc Hacc; [done|].
  cbn [digits_value]. apply IH.
  assert (0 <= default 0 (digit_val c)); [|lia].
  unfold digit_val. case_match; cbn; lia.
Qed.

(** X16: a threshold typed as a decimal integer, with or without a minus
    sign: the message made of a command word, a pair and the digits
    stores the pair in upper case with the float nearest to the integer
    the digits denote. That is the integer itself when it is below
    [2 ^ 53], and an infinity of its sign when it is [2 ^ 1024] or
    more. *)
Theorem alert_decimal_threshold
    (cmd w s : string) (neg : bool) (ud : user_dict) :
  word cmd → word w → decimal s →
  alert (join_words [cmd; w; (if neg then "-" else "") +:+ s]) ud =
    Ok (<["alerts" :=
            (py_upper w,
             b64_round (inject_Z (if neg then - digits_value 0 (chars s)
                                  else digits_value 0 (chars s))))]> ud,
        AlertSet (py_upper w)
          (b64_round (inject_Z (if neg then - digits_value 0 (chars s)
                                else digits_value 0 (chars s))))) ∧
  (digits_value 0 (chars s) < 2 ^ 53 →
   b64_round (inject_Z (if neg then - digits_value 0 (chars s)
                        else digits_value 0 (chars s)))
   = Fin (inject_Z (if neg then - digits_value 0 (chars s)
                    else digits_value 0 (chars s)))) ∧
  (2 ^ 1024 <= digits_value 0 (chars s) →
   b64_round (inject_Z (if neg then - digits_value 0 (chars s)
                        else digits_value 0 (chars s)))
   = if neg then NegInf else PosInf).
Proof.
  intros Hcmd Hw Hs.
  pose proof (digits_value_nonneg 0 (chars s) (Z.le_refl 0)) as Hnonneg.
  split; [|split].
  - assert (word ((if neg then "-" else "") +:+ s)) as Hthr.
    { destruct Hs as [Hne Hds].
      assert (Forall (λ c, is_space c = false) (chars s)) as Hsp
        by (eapply Forall_impl; [exact Hds|apply digit_not_space]).
      destruct neg; [|done].
      change ("-" +:+ s) with (String "-" s). split; [done|].
      by constructor. }
    assert (Forall word [cmd; w; (if neg then "-" else "") +:+ s]) as Hws
      by (repeat (apply List.Forall_cons; [done|]); apply List.Forall_nil).
    rewrite alert_unfold, (py_split_join _ Hws).
    cbn [lookup list_lookup]. by rewrite py_float_decimal.
  - intros Hlt. rewrite <- Qred_inject_Z. apply b64_round_exact.
    exists (if neg then - digits_value 0 (chars s) else digits_value 0 (chars s)), 0.
    split; [destruct neg; lia|]. split; [lia|]. done.
  - intros Hge.
    destruct (digits_value 0 (chars s)) as [|p|p] eqn:Hp; [done| |lia].
    destruct neg; unfold b64_round; cbn [inject_Z Qnum Qden];
      change (- Z.pos p) with (Z.neg p); cbv iota;
      by rewrite b64_nearest_overflow.
Qed.

Lemma alert_decimal_threshold_witness :
  alert (join_words ["/alert"; "usd/ngn"; "-" +:+ "5"]) ∅ =
    Ok (<["alerts" := ("USD/NGN", Fin (inject_Z (-5)))]> ∅,
        AlertSet "USD/NGN" (Fin (inject_Z (-5)))).
Proof.
  destruct (alert_decimal_threshold "/alert" "usd/ngn" "5" true ∅)
    as (Ha & Hexact & _).
  - split; [done|]. repeat constructor.
  - split; [done|]. repeat constructor.
  - split; [done|]. repeat constructor. by exists 5.
  - rewrite Ha, Hexact; [reflexivity|]. by vm_compute.
Defined.

Example decimal_threshold_rounds :
  py_float "9007199254740993" = Ok (b64_round (inject_Z 9007199254740993)) ∧
  b64_round (inject_Z 9007199254740993) = Fin (inject_Z 9007199254740992) ∧
  b64_round (inject_Z (- 10 ^ 400)) = NegInf.
Proof. repeat apply conj; vm_compute; reflexivity. Qed.
